(** * Outline extraction heuristics of [process_pdfs.py]

    A shallow embedding of the text normaliser ([clean_text]), the title
    selector ([extract_title_smart]), the heading classifier
    ([detect_intelligent_heading]) and the outline builder
    ([extract_outline_exact]), together with the properties the
    specification states about them.

    Modelling conventions
    - A Python [str] is a list of code points.  The code points are the
      256 values of [ascii], read as U+0000 .. U+00FF (so the copyright
      sign is the single character 169).  Every string operation below is
      the restriction of the Python operation to that range, which is
      closed under [str.lower].
    - A page number is a Python [int], here [Z].
    - A document is the list of what [page.extract_text()] yields for its
      pages, in order: [None] or a string. *)

From Stdlib Require Import Ascii String ZArith Lia.
From stdpp Require Import gmap strings list.

Local Open Scope bool_scope.

(** ** Python strings *)

Module Py.

Abbreviation str := (list ascii).

(** A string literal of the source. *)
Definition lit (s : string) : str := list_ascii_of_string s.

Definition code (c : ascii) : N := N_of_ascii c.

Definition between (lo hi : N) (c : ascii) : bool :=
  (lo <=? code c)%N && (code c <=? hi)%N.

(** [str.isspace] on one character, which is also what [\s] matches in a
    [str] pattern: TAB..CR, FS..US, SPACE, NEL and NBSP. *)
Definition isspace (c : ascii) : bool :=
  between 9 13 c || between 28 32 c || (code c =? 133)%N || (code c =? 160)%N.

(** [\d] in a [str] pattern: the decimal digits. *)
Definition isdecimal (c : ascii) : bool := between 48 57 c.

(** Characters with the [Uppercase] property: A-Z, and the Latin-1
    capitals except the multiplication sign. *)
Definition isupper_char (c : ascii) : bool :=
  between 65 90 c || between 192 214 c || between 216 222 c.

(** Characters with the [Lowercase] property: a-z, the two ordinal
    indicators, the micro sign, sharp s and the Latin-1 small letters
    except the division sign. *)
Definition islower_char (c : ascii) : bool :=
  between 97 122 c || (code c =? 170)%N || (code c =? 181)%N ||
  (code c =? 186)%N || between 223 246 c || between 248 255 c.

Definition lower_char (c : ascii) : ascii :=
  if isupper_char c then ascii_of_N (code c + 32) else c.

(** [s.lower()] *)
Definition lower (s : str) : str := map lower_char s.

(** Characters with the titlecase property: the range has none (the first
    titlecase letter is U+01C5). *)
Definition istitle_char (c : ascii) : bool := false.




(** [s.isupper()]: false as soon as a character is lowercase or titlecase,
    and true when, besides, at least one character is uppercase. *)
Definition isupper (s : str) : bool :=
  forallb (fun c => negb (islower_char c || istitle_char c)) s &&
  existsb isupper_char s.

(** [s.lstrip()] *)
Fixpoint lstrip (s : str) : str :=
  match s with
  | [] => []
  | c :: r => if isspace c then lstrip r else s
  end.

(** [s.rstrip()]: a whitespace character is dropped when nothing but
    whitespace follows it. *)
Fixpoint rstrip (s : str) : str :=
  match s with
  | [] => []
  | c :: r =>
      match rstrip r with
      | [] => if isspace c then [] else [c]
      | r' => c :: r'
      end
  end.

(** [s.strip()] *)
Definition strip (s : str) : str := rstrip (lstrip s).

(** [re.sub(r'\s+', ' ', s)]: every maximal run of whitespace becomes one
    space.  [in_run] tells that the previous character was whitespace. *)
Fixpoint sub_ws (in_run : bool) (s : str) : str :=
  match s with
  | [] => []
  | c :: r =>
      if isspace c
      then (if in_run then sub_ws true r else " "%char :: sub_ws true r)
      else c :: sub_ws false r
  end.

(** [s.split()]: the maximal runs of characters that are not whitespace.
    [cur] is the token being read, reversed. *)
Fixpoint split_ws_aux (cur : str) (s : str) : list str :=
  match s with
  | [] => match cur with [] => [] | _ => [rev cur] end
  | c :: r =>
      if isspace c
      then match cur with
           | [] => split_ws_aux [] r
           | _ => rev cur :: split_ws_aux [] r
           end
      else split_ws_aux (c :: cur) r
  end.

Definition split_ws (s : str) : list str := split_ws_aux [] s.

(** [s.split(sep)] for a one-character separator: always at least one
    field. *)
Fixpoint split_on_aux (sep : ascii) (cur : str) (s : str) : list str :=
  match s with
  | [] => [rev cur]
  | c :: r =>
      if Ascii.eqb c sep
      then rev cur :: split_on_aux sep [] r
      else split_on_aux sep (c :: cur) r
  end.

Definition split_on (sep : ascii) (s : str) : list str := split_on_aux sep [] s.

Definition str_eqb (a b : str) : bool := bool_decide (a = b).

(** [s.startswith(p)] *)
Fixpoint startswith (p s : str) : bool :=
  match p, s with
  | [], _ => true
  | _ :: _, [] => false
  | a :: p', b :: s' => Ascii.eqb a b && startswith p' s'
  end.

(** [s.endswith(p)] *)
Definition endswith (p s : str) : bool := startswith (rev p) (rev s).

(** [p in s] *)
Fixpoint contains (p s : str) : bool :=
  startswith p s ||
  match s with
  | [] => false
  | _ :: r => contains p r
  end.

(** [s[:-1]] *)
Definition drop_last (s : str) : str := removelast s.

(** [not s] *)
Definition falsy (s : str) : bool :=
  match s with [] => true | _ => false end.

End Py.

Import Py.

(** ** The text normaliser *)

(** [clean_text(text)] *)
Definition clean_text (text : str) : str :=
  if falsy text then [] else sub_ws false (strip text).

(** A string is left-stripped when it is empty or starts with a character
    that is not whitespace. *)
Definition head_ok (s : str) : bool :=
  match s with
  | [] => true
  | c :: _ => negb (isspace c)
  end.

(** ** Regular expressions of the [re] module

    Only what the patterns of the source use.  [re.match] succeeds when
    some prefix of the subject is matched by the pattern; the matcher
    below computes every position at which a match of the pattern that
    starts at the given position can end. *)

Module Re.

Definition newline : ascii := "010"%char.

(** A one-character item of a pattern. *)
Inductive cls : Type :=
  | CLit (c : ascii)          (* a literal character *)
  | CDigit                    (* \d *)
  | CSpace                    (* \s *)
  | CAny                      (* .  (no DOTALL flag) *)
  | CSet (l : list ascii).    (* [...] *)

Definition cls_match (k : cls) (c : ascii) : bool :=
  match k with
  | CLit a => Ascii.eqb a c
  | CDigit => isdecimal c
  | CSpace => isspace c
  | CAny => negb (Ascii.eqb c newline)
  | CSet l => existsb (Ascii.eqb c) l
  end.

Inductive regex : Type :=
  | Eps
  | Bol                                         (* ^ (no MULTILINE flag) *)
  | Eol                                         (* $ *)
  | Chr (k : cls)
  | Cat (a b : regex)
  | Alt (a b : regex)                           (* a|b *)
  | Rep (lo : nat) (hi : option nat) (a : regex)  (* a{lo,hi} *)
  | Grp (a : regex).                            (* (a) *)

(** A position in the subject: how many characters lie before it, and the
    characters after it. *)
Definition pos : Type := nat * str.

(** The positions reached by at least [lo] and at most [hi] successive
    matches of the item whose end positions [f] gives.  An iteration that
    matches the empty string only counts towards [lo], so
    [lo + length rest] iterations reach every position there is. *)
Fixpoint rep (f : pos -> list pos) (fuel lo : nat) (hi : option nat)
    (p : pos) : list pos :=
  (match lo with 0 => [p] | S _ => [] end) ++
  match fuel with
  | 0 => []
  | S fuel' =>
      match hi with
      | Some 0 => []
      | _ => flat_map (rep f fuel' (pred lo) (option_map pred hi)) (f p)
      end
  end.

Fixpoint ends (r : regex) (p : pos) : list pos :=
  match r with
  | Eps => [p]
  | Bol => match fst p with 0 => [p] | S _ => [] end
  | Eol =>
      match snd p with
      | [] => [p]
      | [c] => if Ascii.eqb c newline then [p] else []
      | _ => []
      end
  | Chr k =>
      match snd p with
      | c :: s' => if cls_match k c then [(S (fst p), s')] else []
      | [] => []
      end
  | Cat a b => flat_map (ends b) (ends a p)
  | Alt a b => ends a p ++ ends b p
  | Rep lo hi a => rep (ends a) (lo + length (snd p)) lo hi p
  | Grp a => ends a p
  end.

(** [re.match(r, s)] as a truth value. *)
Definition re_match (r : regex) (s : str) : bool :=
  match ends r (0, s) with
  | [] => false
  | _ :: _ => true
  end.

(** Pattern syntax. *)
Definition chr (c : ascii) : regex := Chr (CLit c).
Definition digit : regex := Chr CDigit.
Definition space : regex := Chr CSpace.
Definition dot : regex := Chr CAny.
Definition star (a : regex) : regex := Rep 0 None a.
Definition plus (a : regex) : regex := Rep 1 None a.
Definition opt (a : regex) : regex := Rep 0 (Some 1) a.

Fixpoint seq (rs : list regex) : regex :=
  match rs with
  | [] => Eps
  | [r] => r
  | r :: rs' => Cat r (seq rs')
  end.

Fixpoint alts (rs : list regex) : regex :=
  match rs with
  | [] => Rep 1 (Some 0) Eps
  | [r] => r
  | r :: rs' => Alt r (alts rs')
  end.

(** A run of literal characters. *)
Definition word (s : string) : regex := seq (map chr (lit s)).

End Re.

Import Re.

(** ** The heading classifier *)

Inductive heading_level : Type := H1 | H2 | H3.

Definition copyright_sign : ascii := "169"%char.

Definition months : list string :=
  ["jan"; "feb"; "mar"; "apr"; "may"; "jun";
   "jul"; "aug"; "sep"; "oct"; "nov"; "dec"]%string.

Definition skip_patterns : list regex :=
  [ seq [Bol; plus digit; Eol]                          (* ^\d+$ *)
  ; seq [Bol; word "page"; plus space; plus digit]      (* ^page\s+\d+ *)
  ; seq [Bol; chr copyright_sign; star dot]             (* ^\xa9.* , the copyright sign *)
  ; seq [Bol; word "www"; chr "."]                      (* ^www\. *)
  ; seq [Bol; word "http"]                              (* ^http *)
  ; seq [Bol; Rep 1 (Some 2) digit; plus space;
         Grp (alts (map word months))]                  (* ^\d{1,2}\s+(jan|...|dec) *)
  ; Rep 3 None (chr ".")                                (* \.{3,} *)
  ].

Definition h1_patterns : list regex :=
  [ seq [Bol; Grp (plus digit); chr "."; plus space; Grp (plus dot)]
      (* ^(\d+)\.\s+(.+) *)
  ; seq [Bol; Grp (seq [word "chapter"; plus space; plus digit]);
         star space; opt (chr ":"); star space; Grp (plus dot)]
      (* ^(chapter\s+\d+)\s*:?\s*(.+) *)
  ; seq [Bol; Grp (seq [word "part"; plus space;
                        plus (Chr (CSet ["i"; "v"; "x"]%char))]);
         star space; opt (chr ":"); star space; Grp (plus dot)]
      (* ^(part\s+[ivx]+)\s*:?\s*(.+) *)
  ].

Definition h1_sections : list str :=
  map lit
    ["introduction"; "overview"; "background"; "summary"; "conclusion";
     "references"; "bibliography"; "acknowledgements"; "acknowledgments";
     "appendix"; "index"; "glossary"; "abstract"; "revision history";
     "table of contents"]%string.

Definition h2_patterns : list regex :=
  [ seq [Bol; Grp (seq [plus digit; chr "."; plus digit]);
         plus space; Grp (plus dot)] ].
      (* ^(\d+\.\d+)\s+(.+) *)

Definition h3_patterns : list regex :=
  [ seq [Bol; Grp (seq [plus digit; chr "."; plus digit; chr "."; plus digit]);
         plus space; Grp (plus dot)] ].
      (* ^(\d+\.\d+\.\d+)\s+(.+) *)

(** [for pattern in ps: if re.match(pattern, s): ...] *)
Definition any_match (ps : list regex) (s : str) : bool :=
  existsb (fun p => re_match p s) ps.

(** [x in xs] for a list of strings *)
Definition str_in (x : str) (xs : list str) : bool := existsb (str_eqb x) xs.

(** The two formatting heuristics at the end of the classifier. *)
Definition all_caps_rule (line : str) : bool :=
  isupper line && (5 <=? length line) && (length line <=? 60) &&
  (length (split_ws line) <=? 8).

Definition colon_rule (line : str) : bool :=
  endswith (lit ":") line && (10 <=? length line) && (length line <=? 80) &&
  (length (split_ws line) <=? 10).

(** [detect_intelligent_heading(line, page_num)]; the result is [None] or
    the pair (level, text). *)
Definition detect_intelligent_heading (line : str) (page_num : Z)
    : option (heading_level * str) :=
  let line := clean_text line in
  let line_lower := lower line in
  if (length line <? 3) || (200 <? length line) then None
  else if any_match skip_patterns line_lower then None
  else if any_match h1_patterns line_lower then Some (H1, line)
  else if str_in (strip line_lower) h1_sections then Some (H1, line)
  else if any_match h2_patterns line_lower then Some (H2, line)
  else if any_match h3_patterns line_lower then Some (H3, line)
  else if all_caps_rule line then Some (H1, line)
  else if colon_rule line then Some (H2, strip (drop_last line))
  else None.

(** The [return] statement of the classifier that decides a line, by the
    rule it belongs to. *)
Inductive rule : Type :=
  | RuleH1Pattern | RuleH1Section | RuleH2Pattern | RuleH3Pattern
  | RuleAllCaps | RuleColon.

Definition first_matching_rule (line : str) : option rule :=
  let line := clean_text line in
  let line_lower := lower line in
  if (length line <? 3) || (200 <? length line) then None
  else if any_match skip_patterns line_lower then None
  else if any_match h1_patterns line_lower then Some RuleH1Pattern
  else if str_in (strip line_lower) h1_sections then Some RuleH1Section
  else if any_match h2_patterns line_lower then Some RuleH2Pattern
  else if any_match h3_patterns line_lower then Some RuleH3Pattern
  else if all_caps_rule line then Some RuleAllCaps
  else if colon_rule line then Some RuleColon
  else None.

(** What each [return] statement returns for the normalised line. *)
Definition rule_result (line : str) (r : rule) : heading_level * str :=
  match r with
  | RuleH1Pattern | RuleH1Section | RuleAllCaps => (H1, line)
  | RuleH2Pattern => (H2, line)
  | RuleH3Pattern => (H3, line)
  | RuleColon => (H2, strip (drop_last line))
  end.

(** ** The title selector *)

Definition title_skip_words : list str :=
  [ lit "copyright"; lit "version"; lit "page"; [copyright_sign];
    lit "date"; lit "www"; lit "http" ].

(** [^\d+\.] *)
Definition numbered_prefix : regex := seq [Bol; plus digit; chr "."].

(** The three nested conditions a candidate line has to pass. *)
Definition title_like (line : str) : bool :=
  ((15 <=? length line) && (length line <=? 150) &&
   (3 <=? length (split_ws line))) &&
  negb (existsb (fun skip => contains skip (lower line)) title_skip_words) &&
  (negb (re_match numbered_prefix line) &&
   negb (startswith (lit "table of") (lower line))).

(** The loop [for line in lines[:15]] with its [return]. *)
Fixpoint first_title (lines : list str) : str :=
  match lines with
  | [] => []
  | line :: rest =>
      if title_like line then line ++ lit "  " else first_title rest
  end.

(** [[clean_text(line) for line in lines if clean_text(line)]] *)
Definition nonempty_clean (raw_lines : list str) : list str :=
  List.filter (fun l => negb (falsy l)) (map clean_text raw_lines).

(** The selector on the lines of the first page. *)
Definition title_of_lines (raw_lines : list str) : str :=
  first_title (take 15 (nonempty_clean raw_lines)).

(** [extract_title_smart], on the texts of the pages of the document. *)
Definition extract_title_smart (pages : list (option str)) : str :=
  match pages with
  | [] => []
  | page :: _ =>
      match page with
      | None => []
      | Some first_page_text =>
          if falsy first_page_text then []
          else title_of_lines (split_on newline first_page_text)
      end
  end.

(** ** The outline builder *)

(** An item of the outline: the dictionary with the keys ["level"],
    ["text"] and ["page"]. *)
Record heading : Type := Heading {
  level : heading_level;
  text : str;
  page : Z
}.

Global Instance heading_level_eq_dec : EqDecision heading_level.
Proof. solve_decision. Defined.

Global Instance heading_level_countable : Countable heading_level.
Proof.
  refine (inj_countable'
    (fun l => match l with H1 => 1%positive | H2 => 2%positive | H3 => 3%positive end)
    (fun n => match n with 1%positive => H1 | 2%positive => H2 | _ => H3 end) _).
  intros []; reflexivity.
Defined.

Global Instance heading_eq_dec : EqDecision heading.
Proof. solve_decision. Defined.

(** The body of the loop over the lines of a page: the item the line
    adds to [outline], if any. *)
Definition line_heading (page_num : Z) (line : str) : option heading :=
  let line_clean := clean_text line in
  if falsy line_clean || (length line_clean <? 3) then None
  else
    match detect_intelligent_heading line_clean page_num with
    | Some (level, text_content) => Some (Heading level text_content page_num)
    | None => None
    end.

(** The loop over the lines, appending to [outline]. *)
Fixpoint scan_lines (page_num : Z) (lines : list str) (outline : list heading)
    : list heading :=
  match lines with
  | [] => outline
  | line :: rest =>
      scan_lines page_num rest
        (match line_heading page_num line with
         | Some item => outline ++ [item]
         | None => outline
         end)
  end.

(** The body of the loop over the pages. *)
Definition scan_page (page_num : Z) (page : option str)
    (outline : list heading) : list heading :=
  match page with
  | None => outline
  | Some text =>
      if falsy text then outline
      else scan_lines page_num (split_on newline text) outline
  end.

(** [for page_num, page in enumerate(pdf.pages, 1)] *)
Fixpoint scan_pages (page_num : Z) (pages : list (option str))
    (outline : list heading) : list heading :=
  match pages with
  | [] => outline
  | page :: rest =>
      scan_pages (page_num + 1) rest (scan_page page_num page outline)
  end.

(** The key of an item in [seen]. *)
Definition key_of (item : heading) : heading_level * str * Z :=
  (level item, text item, page item).

(** One turn of the loop that removes duplicates; the state is [seen] and
    [unique_outline]. *)
Definition dedup_step
    (st : gset (heading_level * str * Z) * list heading) (item : heading)
    : gset (heading_level * str * Z) * list heading :=
  let key := key_of item in
  if decide (key ∈ st.1) then st
  else ({[ key ]} ∪ st.1, st.2 ++ [item]).

Definition remove_duplicates (outline : list heading) : list heading :=
  (fold_left dedup_step outline (∅, [])).2.

(** The list [outline] before duplicates are removed. *)
Definition collect_outline (pages : list (option str)) : list heading :=
  scan_pages 1 pages [].

(** [extract_outline_exact], on the texts of the pages of the document. *)
Definition extract_outline_exact (pages : list (option str)) : list heading :=
  remove_duplicates (collect_outline pages).

(** ** Notions the properties are stated with *)

(** The classifier as the builder uses it: the page number is put into
    the item that is returned. *)
Definition classify (line : str) (page_num : Z) : option heading :=
  match detect_intelligent_heading line page_num with
  | Some (level, text_content) => Some (Heading level text_content page_num)
  | None => None
  end.


(** The index of the first item of [l] with key [k] ([length l] when there
    is none). *)
Fixpoint first_index (k : heading_level * str * Z) (l : list heading) : nat :=
  match l with
  | [] => 0
  | x :: r => if decide (key_of x = k) then 0 else S (first_index k r)
  end.

(** What the loop that removes duplicates appends to [unique_outline] for
    the items [l], when it starts with [seen]. *)
Fixpoint fresh_items (seen : gset (heading_level * str * Z)) (l : list heading)
    : list heading :=
  match l with
  | [] => []
  | x :: r =>
      if decide (key_of x ∈ seen) then fresh_items seen r
      else x :: fresh_items ({[ key_of x ]} ∪ seen) r
  end.

(** The items found on one page, and on the pages from number
    [page_num] on. *)
Definition page_items (page_num : Z) (page : option str) : list heading :=
  scan_page page_num page [].

Fixpoint pages_items (page_num : Z) (pages : list (option str)) : list heading :=
  match pages with
  | [] => []
  | page :: rest => page_items page_num page ++ pages_items (page_num + 1) rest
  end.

(** The raw lines of the first page that the title selector reads, and
    the candidates it examines: the first 15 normalised lines that are
    not empty. *)
Definition first_page_lines (pages : list (option str)) : list str :=
  match pages with
  | Some first_page_text :: _ =>
      if falsy first_page_text then [] else split_on newline first_page_text
  | _ => []
  end.

Definition title_candidates (pages : list (option str)) : list str :=
  take 15 (nonempty_clean (first_page_lines pages)).

(** The text of a page, from its lines. *)
Definition unlines (lines : list str) : str :=
  match lines with
  | [] => []
  | l :: ls => l ++ flat_map (fun x => newline :: x) ls
  end.

(** What is left of a string after its leading decimal digits. *)
Fixpoint after_digits (s : str) : str :=
  match s with
  | [] => []
  | c :: r => if isdecimal c then after_digits r else s
  end.

(** The form of a normalised line: a character that is whitespace is a
    space and is followed by a character that is not whitespace ... *)
Fixpoint single_spaced (s : str) : bool :=
  match s with
  | [] => true
  | c :: r =>
      (negb (isspace c) ||
       (Ascii.eqb c " " && negb (falsy r) && head_ok r)) &&
      single_spaced r
  end.

(** ... and the first character is not whitespace. *)
Definition normalized (s : str) : bool := head_ok s && single_spaced s.

(** [" ".join(tokens)] *)
Definition join_tail (tokens : list str) : str :=
  flat_map (fun t => " "%char :: t) tokens.

Definition join_sp (tokens : list str) : str :=
  match tokens with
  | [] => []
  | t :: rest => t ++ join_tail rest
  end.

(** The outline built page by page: the items of each page without their
    duplicates, one page after the other. *)
Fixpoint dedup_by_page (page_num : Z) (pages : list (option str)) : list heading :=
  match pages with
  | [] => []
  | page :: rest =>
      remove_duplicates (scan_page page_num page []) ++
      dedup_by_page (page_num + 1) rest
  end.

(** A page without text, as the empty text. *)
Definition text_or_empty (page : option str) : option str :=
  match page with
  | Some t => Some t
  | None => Some []
  end.

(** ** Properties of the normaliser *)

Section Normaliser.

Lemma sub_ws_idem (f : bool) (t : str) : sub_ws f (sub_ws f t) = sub_ws f t.
Proof.
  revert f. induction t as [|c r IH]; intros f; [reflexivity|].
  simpl. destruct (isspace c) eqn:Hc.
  - destruct f.
    + apply IH.
    + simpl. replace (isspace " ") with true by reflexivity.
      f_equal. apply IH.
  - simpl. rewrite Hc. f_equal. apply IH.
Qed.

Lemma lstrip_head_ok (s : str) : head_ok (lstrip s) = true.
Proof.
  induction s as [|c r IH]; simpl; [reflexivity|].
  destruct (isspace c) eqn:Hc; [exact IH|]. simpl. now rewrite Hc.
Qed.

Lemma head_ok_lstrip (s : str) : head_ok s = true -> lstrip s = s.
Proof.
  destruct s as [|c r]; simpl; [reflexivity|].
  now destruct (isspace c).
Qed.

Lemma rstrip_cons (c : ascii) (r : str) :
  rstrip (c :: r) =
  if isspace c && falsy (rstrip r) then [] else c :: rstrip r.
Proof.
  simpl. destruct (rstrip r); destruct (isspace c); reflexivity.
Qed.

Lemma rstrip_idem (s : str) : rstrip (rstrip s) = rstrip s.
Proof.
  induction s as [|c r IH]; [reflexivity|].
  rewrite rstrip_cons.
  destruct (isspace c && falsy (rstrip r)) eqn:E; [reflexivity|].
  rewrite rstrip_cons, IH, E. reflexivity.
Qed.

Lemma rstrip_head_ok (s : str) : head_ok s = true -> head_ok (rstrip s) = true.
Proof.
  destruct s as [|c r]; [reflexivity|].
  rewrite rstrip_cons. simpl. intros Hc.
  destruct (isspace c) eqn:E; [discriminate|]. simpl. now rewrite E.
Qed.

(** A right-stripped string that is not empty has a character that is not
    whitespace, so its collapsed form is not empty either. *)
Lemma sub_ws_nonempty (f : bool) (s : str) :
  rstrip s = s -> s <> [] -> sub_ws f s <> [].
Proof.
  revert f. induction s as [|c r IH]; intros f Hs Hne; [congruence|].
  rewrite rstrip_cons in Hs. simpl.
  destruct (isspace c) eqn:Hc; [|discriminate].
  simpl in Hs. destruct (falsy (rstrip r)) eqn:Hf; [discriminate|].
  injection Hs as Hr.
  assert (r <> []) by (intros ->; discriminate).
  destruct f; [now apply IH | discriminate].
Qed.

Lemma rstrip_sub_ws (f : bool) (s : str) :
  rstrip s = s -> rstrip (sub_ws f s) = sub_ws f s.
Proof.
  revert f. induction s as [|c r IH]; intros f Hs; [reflexivity|].
  rewrite rstrip_cons in Hs. simpl.
  destruct (isspace c) eqn:Hc.
  - simpl in Hs. destruct (falsy (rstrip r)) eqn:Hf; [discriminate|].
    injection Hs as Hr.
    destruct f; [now apply IH|].
    rewrite rstrip_cons, (IH true Hr).
    assert (Hne : sub_ws true r <> []).
    { apply sub_ws_nonempty; [exact Hr|]. intros ->. discriminate. }
    destruct (sub_ws true r); [congruence|]. reflexivity.
  - simpl in Hs. injection Hs as Hr.
    rewrite rstrip_cons, Hc, (IH false Hr). reflexivity.
Qed.

Lemma head_ok_sub_ws (s : str) : head_ok s = true -> head_ok (sub_ws false s) = true.
Proof.
  destruct s as [|c r]; [reflexivity|]. simpl.
  destruct (isspace c) eqn:Hc; [discriminate|]. simpl. now rewrite Hc.
Qed.

Lemma strip_fixed (s : str) : head_ok s = true -> rstrip s = s -> strip s = s.
Proof.
  intros Hh Hr. unfold strip. now rewrite head_ok_lstrip.
Qed.

Lemma clean_text_unfold (s : str) : clean_text s = sub_ws false (strip s).
Proof. destruct s; reflexivity. Qed.

Lemma clean_text_head_ok (s : str) : head_ok (clean_text s) = true.
Proof.
  rewrite clean_text_unfold. apply head_ok_sub_ws.
  unfold strip. apply rstrip_head_ok, lstrip_head_ok.
Qed.

Lemma clean_text_rstrip (s : str) : rstrip (clean_text s) = clean_text s.
Proof.
  rewrite clean_text_unfold. apply rstrip_sub_ws.
  unfold strip. apply rstrip_idem.
Qed.

Lemma clean_text_strip (s : str) : strip (clean_text s) = clean_text s.
Proof.
  apply strip_fixed; [apply clean_text_head_ok | apply clean_text_rstrip].
Qed.

Lemma clean_text_idem (s : str) : clean_text (clean_text s) = clean_text s.
Proof.
  rewrite (clean_text_unfold (clean_text s)), clean_text_strip.
  rewrite clean_text_unfold. apply sub_ws_idem.
Qed.

(** The normaliser on a line with tabs, a line feed and a no-break
    space. *)
Example clean_text_example :
  clean_text ("009"%char :: lit "  Scope " ++ "160"%char :: "010"%char ::
              lit "of   work " ++ ["013"%char])
  = lit "Scope of work".
Proof. reflexivity. Qed.

Example split_ws_example :
  split_ws (lit "  a bb   c ") = [lit "a"; lit "bb"; lit "c"].
Proof. reflexivity. Qed.

End Normaliser.

(** C5.  The text normaliser is idempotent: for every string [s],
    normalising the normalised string gives the normalised string. *)
Theorem clean_text_idempotent (s : str) :
  clean_text (clean_text s) = clean_text s.
Proof. apply clean_text_idem. Qed.

(** ** Properties of the classifier *)

Section Classifier.

Lemma detect_clean (s : str) (p : Z) :
  detect_intelligent_heading (clean_text s) p = detect_intelligent_heading s p.
Proof. unfold detect_intelligent_heading. now rewrite clean_text_idem. Qed.

Lemma detect_page (line : str) (p q : Z) :
  detect_intelligent_heading line p = detect_intelligent_heading line q.
Proof. reflexivity. Qed.

(** The classifier returns what the first matching rule returns. *)
Lemma detect_by_rule (line : str) (p : Z) :
  detect_intelligent_heading line p =
  option_map (rule_result (clean_text line)) (first_matching_rule line).
Proof.
  unfold detect_intelligent_heading, first_matching_rule.
  repeat match goal with
         | |- context [if ?b then _ else _] => destruct b; [reflexivity|]
         end.
  reflexivity.
Qed.

Lemma detect_short (s : str) (p : Z) :
  falsy (clean_text s) || (length (clean_text s) <? 3) = true ->
  detect_intelligent_heading s p = None.
Proof.
  intros H. unfold detect_intelligent_heading.
  assert (E : (length (clean_text s) <? 3) = true).
  { destruct (clean_text s); [reflexivity | exact H]. }
  now rewrite E.
Qed.

Lemma line_heading_classify (s : str) (p : Z) : line_heading p s = classify s p.
Proof.
  unfold line_heading, classify. rewrite detect_clean.
  destruct (falsy (clean_text s) || (length (clean_text s) <? 3)) eqn:E;
    [|reflexivity].
  now rewrite (detect_short s p E).
Qed.

(** The scenarios of the specification for numbered lines, page numbers
    and the fixed vocabulary. *)
Example scenario_numbered (N : Z) :
  classify (lit "1. Introduction") N = Some (Heading H1 (lit "1. Introduction") N).
Proof. reflexivity. Qed.

Example scenario_subsection (N : Z) :
  classify (lit "1.1 Subsection") N = Some (Heading H2 (lit "1.1 Subsection") N).
Proof. reflexivity. Qed.

Example scenario_page_number (N : Z) : classify (lit "Page 12") N = None.
Proof. reflexivity. Qed.

Example scenario_vocabulary (N : Z) :
  first_matching_rule (lit "REVISION HISTORY") = Some RuleH1Section /\
  classify (lit "REVISION HISTORY") N = Some (Heading H1 (lit "REVISION HISTORY") N).
Proof. split; reflexivity. Qed.

End Classifier.

(** C10.  Classification is invariant under normalising its input first:
    for every raw string [s] and page number [p], classifying the
    normalised string gives what classifying [s] gives, for the pair the
    classifier returns and for the item built from it; and the step of
    the outline builder, which passes the normalised line on, yields the
    classification of the raw line. *)
Theorem classify_normalised_input (s : str) (p : Z) :
  detect_intelligent_heading (clean_text s) p = detect_intelligent_heading s p /\
  classify (clean_text s) p = classify s p /\
  line_heading p s = classify s p.
Proof.
  split; [apply detect_clean|]. split; [|apply line_heading_classify].
  unfold classify. now rewrite detect_clean.
Qed.

(** C8.  The page number does not take part in the decision: for every
    line and page numbers [p] and [q] the classifier returns the same
    pair (level, text), a heading is returned for [p] exactly when one is
    returned for [q], with the same level and text, and the page field of
    the item is the page number that was passed. *)
Theorem page_number_carried_through (line : str) (p q : Z) :
  detect_intelligent_heading line p = detect_intelligent_heading line q /\
  classify line q =
    option_map (fun h => Heading (level h) (text h) q) (classify line p) /\
  (forall h, classify line p = Some h -> page h = p).
Proof.
  split; [apply detect_page|]. unfold classify.
  rewrite (detect_page line q p).
  destruct (detect_intelligent_heading line p) as [[lv tx]|]; simpl.
  - split; [reflexivity|]. intros h [= <-]. reflexivity.
  - split; [reflexivity|]. intros h [=].
Qed.

(** C7.  For every page number [N], the line "Executive Summary:" is
    classified as a heading of level H2 on page [N] whose text is
    "Executive Summary": the colon at the end is removed. *)
Theorem executive_summary_colon (N : Z) :
  classify (lit "Executive Summary:") N =
  Some (Heading H2 (lit "Executive Summary") N).
Proof. vm_compute. reflexivity. Qed.

(** C1, as the code behaves.  The line "1. Introduction ..... 5" contains
    five consecutive dots, no exclusion pattern rejects it, and the
    classifier returns it as a heading of level H1: the pattern for the
    leader dots is tried at the start of the line only. *)
Theorem leader_dots_inside_line_not_rejected :
  let line := lit "1. Introduction ..... 5" in
  contains (lit "...") (lower (clean_text line)) = true /\
  any_match skip_patterns (lower (clean_text line)) = false /\
  forall p, detect_intelligent_heading line p = Some (H1, line).
Proof. vm_compute. repeat split. Qed.





(** ** Properties of the title selector *)

Section Title.

Lemma first_title_cases (lines : list str) :
  (Forall (fun l => title_like l = false) lines /\ first_title lines = []) \/
  (exists pre line post,
     lines = pre ++ line :: post /\
     Forall (fun l => title_like l = false) pre /\
     title_like line = true /\
     first_title lines = line ++ lit "  ").
Proof.
  induction lines as [|l ls IH]; [left; split; [constructor | reflexivity]|].
  simpl. destruct (title_like l) eqn:E.
  - right. exists [], l, ls. repeat split; [constructor | exact E].
  - destruct IH as [[Hall Hnone] | (pre & line & post & -> & Hpre & Hline & Hres)].
    + left. split; [now constructor | exact Hnone].
    + right. exists (l :: pre), line, post. repeat split; try assumption.
      now constructor.
Qed.

Lemma extract_title_smart_lines (pages : list (option str)) :
  extract_title_smart pages = first_title (title_candidates pages).
Proof.
  unfold extract_title_smart, title_candidates, first_page_lines, title_of_lines.
  destruct pages as [|[t|] rest]; try reflexivity.
  destruct (falsy t); reflexivity.
Qed.

End Title.

(** C6.  On the first-page lines "Acme Corp", "Annual Report on Regional
    Market Trends" and "(c) 2023 Acme" the title selector returns the
    second line followed by two spaces.  In general the title is either
    empty, and then none of the candidates (the first 15 normalised lines
    of the first page that are not empty) passes the filters, or it is the
    first candidate that passes all filters followed by exactly two
    spaces; and when no candidate passes, the title is empty. *)
Theorem title_selection :
  (let lines := [ lit "Acme Corp";
                  lit "Annual Report on Regional Market Trends";
                  copyright_sign :: lit " 2023 Acme" ] in
   title_of_lines lines = lit "Annual Report on Regional Market Trends  " /\
   extract_title_smart [Some (unlines lines)] =
     lit "Annual Report on Regional Market Trends  ") /\
  (forall pages,
     (Forall (fun l => title_like l = false) (title_candidates pages) /\
      extract_title_smart pages = []) \/
     (exists pre line post,
        title_candidates pages = pre ++ line :: post /\
        Forall (fun l => title_like l = false) pre /\
        title_like line = true /\
        extract_title_smart pages = line ++ [" "; " "]%char)) /\
  (forall pages,
     Forall (fun l => title_like l = false) (title_candidates pages) ->
     extract_title_smart pages = []).
Proof.
  split; [vm_compute; split; reflexivity|]. split.
  - intros pages. rewrite extract_title_smart_lines. apply first_title_cases.
  - intros pages Hall. rewrite extract_title_smart_lines.
    destruct (first_title_cases (title_candidates pages))
      as [[_ H] | (pre & line & post & E & _ & Hline & _)]; [exact H|].
    rewrite E in Hall. apply Forall_app in Hall as [_ Hall].
    apply Forall_cons in Hall as [Hall _]. congruence.
Qed.

Lemma title_selection_witness :
  extract_title_smart
    [Some (unlines [lit "Acme Corp"; copyright_sign :: lit " 2023 Acme Holdings"])]
  = [].
Proof.
  apply (proj2 (proj2 title_selection)). vm_compute.
  repeat constructor.
Defined.

(** ** Properties of the outline builder *)

Section Dedup.

Implicit Types (seen : gset (heading_level * str * Z)) (l acc : list heading).

Lemma key_of_inj (x y : heading) : key_of x = key_of y -> x = y.
Proof. destruct x, y. unfold key_of. simpl. now intros [= -> -> ->]. Qed.

Lemma fold_dedup_step l seen acc :
  (fold_left dedup_step l (seen, acc)).2 = acc ++ fresh_items seen l.
Proof.
  revert seen acc. induction l as [|x r IH]; intros seen acc; simpl.
  - now rewrite app_nil_r.
  - unfold dedup_step at 2. simpl.
    destruct (decide (key_of x ∈ seen)); [apply IH|].
    rewrite IH, <- app_assoc. reflexivity.
Qed.

Lemma remove_duplicates_fresh l : remove_duplicates l = fresh_items ∅ l.
Proof. unfold remove_duplicates. now rewrite fold_dedup_step. Qed.

Lemma fresh_items_elem seen l (x : heading) :
  x ∈ fresh_items seen l <-> x ∈ l /\ key_of x ∉ seen.
Proof.
  revert seen. induction l as [|y r IH]; intros seen; simpl.
  - split; [intros H | intros [H _]]; inversion H.
  - destruct (decide (key_of y ∈ seen)) as [Hin|Hout].
    + rewrite IH, elem_of_cons. split; [tauto|].
      intros [[->|H] Hx]; tauto.
    + rewrite !elem_of_cons, IH, elem_of_union, elem_of_singleton. split.
      * intros [->|[H Hx]]; tauto.
      * intros [[->|H] Hx]; [tauto|].
        destruct (decide (x = y)) as [->|Hne]; [tauto|].
        right. split; [exact H|]. intros [E|E]; [|tauto].
        apply Hne, key_of_inj, E.
Qed.

Lemma fresh_items_nodup seen l : NoDup (key_of <$> fresh_items seen l).
Proof.
  revert seen. induction l as [|y r IH]; intros seen; simpl; [constructor|].
  destruct (decide (key_of y ∈ seen)); [apply IH|].
  rewrite fmap_cons. constructor; [|apply IH].
  intros (z & E & Hz)%list_elem_of_fmap.
  apply fresh_items_elem in Hz as [_ Hz]. apply Hz.
  rewrite <- E. set_solver.
Qed.

Lemma first_index_cons_ne (k : heading_level * str * Z) (x : heading) l :
  key_of x <> k -> first_index k (x :: l) = S (first_index k l).
Proof. intros H. simpl. now destruct (decide (key_of x = k)). Qed.

Lemma fresh_items_order seen l (i j : nat) (a b : heading) :
  i < j ->
  fresh_items seen l !! i = Some a ->
  fresh_items seen l !! j = Some b ->
  first_index (key_of a) l < first_index (key_of b) l.
Proof.
  revert seen i j. induction l as [|y r IH]; intros seen i j Hij Ha Hb;
    simpl in Ha, Hb; [discriminate|].
  destruct (decide (key_of y ∈ seen)) as [Hin|Hout].
  - assert (Hka : key_of y <> key_of a).
    { intros E. apply list_elem_of_lookup_2, fresh_items_elem in Ha as [_ Ha].
      apply Ha. now rewrite <- E. }
    assert (Hkb : key_of y <> key_of b).
    { intros E. apply list_elem_of_lookup_2, fresh_items_elem in Hb as [_ Hb].
      apply Hb. now rewrite <- E. }
    rewrite !first_index_cons_ne by assumption.
    apply (proj1 (Nat.succ_lt_mono _ _)). eauto.
  - destruct j as [|j]; [lia|]. simpl in Hb.
    assert (Hkb : key_of y <> key_of b).
    { intros E. apply list_elem_of_lookup_2, fresh_items_elem in Hb as [_ Hb].
      apply Hb. rewrite <- E. set_solver. }
    rewrite (first_index_cons_ne (key_of b)) by assumption.
    destruct i as [|i]; simpl in Ha.
    + injection Ha as ->. simpl.
      destruct (decide (key_of a = key_of a)); [lia | congruence].
    + assert (Hka : key_of y <> key_of a).
      { intros E. apply list_elem_of_lookup_2, fresh_items_elem in Ha as [_ Ha].
        apply Ha. rewrite <- E. set_solver. }
      rewrite (first_index_cons_ne (key_of a)) by assumption.
      apply (proj1 (Nat.succ_lt_mono _ _)).
      apply (IH ({[key_of y]} ∪ seen) i j); [lia | assumption..].
Qed.

Lemma first_index_lookup (x : heading) l :
  x ∈ l -> l !! first_index (key_of x) l = Some x.
Proof.
  induction l as [|y r IH]; intros H; [inversion H|].
  simpl. destruct (decide (key_of y = key_of x)) as [E|Hne].
  - apply key_of_inj in E as ->. reflexivity.
  - apply elem_of_cons in H as [->|H]; [congruence|]. simpl. now apply IH.
Qed.

End Dedup.

(** C4.  For every sequence of pages, no two items of the outline that is
    returned agree on level, text and page; the outline has exactly the
    items of the sequence collected before duplicates are removed; and
    its items come in the order of their first occurrences there: of two
    items of the outline, the earlier one occurs first at a smaller index
    of the collected sequence, and that index holds the item itself. *)
Theorem outline_without_duplicates (pages : list (option str)) :
  let collected := collect_outline pages in
  let outline := extract_outline_exact pages in
  NoDup (key_of <$> outline) /\
  (forall x, x ∈ outline <-> x ∈ collected) /\
  (forall (i j : nat) (a b : heading),
     i < j -> outline !! i = Some a -> outline !! j = Some b ->
     first_index (key_of a) collected < first_index (key_of b) collected) /\
  (forall x, x ∈ outline ->
     collected !! first_index (key_of x) collected = Some x).
Proof.
  intros collected outline. subst outline. unfold extract_outline_exact.
  fold collected. rewrite remove_duplicates_fresh.
  split; [apply fresh_items_nodup|]. split; [|split].
  - intros x. rewrite fresh_items_elem.
    split; [now intros [H _] | intros H; split; [exact H | apply not_elem_of_empty]].
  - intros i j a b. apply fresh_items_order.
  - intros x Hx. apply first_index_lookup.
    now apply fresh_items_elem in Hx as [Hx _].
Qed.

Section Builder.

Lemma scan_lines_app (n : Z) (lines : list str) (acc : list heading) :
  scan_lines n lines acc = acc ++ scan_lines n lines [].
Proof.
  revert acc. induction lines as [|l ls IH]; intros acc; simpl.
  - now rewrite app_nil_r.
  - rewrite IH. rewrite (IH (match line_heading n l with
                             | Some item => [item] | None => [] end)).
    destruct (line_heading n l); [now rewrite <- app_assoc | reflexivity].
Qed.

Lemma scan_page_app (n : Z) (page : option str) (acc : list heading) :
  scan_page n page acc = acc ++ page_items n page.
Proof.
  unfold page_items, scan_page. destruct page as [t|]; [|now rewrite app_nil_r].
  destruct (falsy t); [now rewrite app_nil_r | apply scan_lines_app].
Qed.

Lemma scan_pages_app (n : Z) (pages : list (option str)) (acc : list heading) :
  scan_pages n pages acc = acc ++ pages_items n pages.
Proof.
  revert n acc. induction pages as [|pg rest IH]; intros n acc; simpl.
  - now rewrite app_nil_r.
  - rewrite IH, scan_page_app, app_assoc. reflexivity.
Qed.

Lemma collect_outline_items (pages : list (option str)) :
  collect_outline pages = pages_items 1 pages.
Proof. unfold collect_outline. now rewrite scan_pages_app. Qed.

(** An item found on the lines of a page is the classification of one of
    them. *)
Lemma scan_lines_elem (n : Z) (lines : list str) (h : heading) :
  h ∈ scan_lines n lines [] ->
  exists line, line ∈ lines /\ classify line n = Some h.
Proof.
  induction lines as [|l ls IH]; simpl; [intros H; inversion H|].
  rewrite scan_lines_app. intros [H|H]%elem_of_app.
  - exists l. split; [left|]. rewrite <- line_heading_classify.
    destruct (line_heading n l); [|inversion H].
    apply list_elem_of_singleton in H as ->. reflexivity.
  - destruct (IH H) as (line & Hin & Hc). exists line. split; [now right | exact Hc].
Qed.

Lemma classify_page (line : str) (n : Z) (h : heading) :
  classify line n = Some h -> page h = n.
Proof.
  unfold classify.
  destruct (detect_intelligent_heading line n) as [[lv tx]|]; [|discriminate].
  now intros [= <-].
Qed.

(** An item of the pages numbered from [n] on comes from a line of a page
    that has text, and carries the number of that page. *)
Lemma pages_items_elem (n : Z) (pages : list (option str)) (h : heading) :
  h ∈ pages_items n pages ->
  exists (i : nat) (t line : str),
    pages !! i = Some (Some t) /\ t <> [] /\
    line ∈ split_on newline t /\
    classify line (n + Z.of_nat i) = Some h.
Proof.
  revert n. induction pages as [|pg rest IH]; intros n; simpl;
    [intros H; inversion H|].
  intros [H|H]%elem_of_app.
  - unfold page_items, scan_page in H. destruct pg as [t|]; [|inversion H].
    destruct t as [|c t]; [inversion H|]. simpl in H.
    apply scan_lines_elem in H as (line & Hin & Hc).
    exists 0, (c :: t), line. rewrite Z.add_0_r. now repeat split.
  - destruct (IH _ H) as (i & t & line & Hi & Ht & Hin & Hc).
    exists (S i), t, line. repeat split; try assumption.
    now replace (n + Z.of_nat (S i))%Z with (n + 1 + Z.of_nat i)%Z by lia.
Qed.

Lemma pages_items_none (n : Z) (pages : list (option str)) :
  (forall (t line : str) (m : Z),
     Some t ∈ pages -> line ∈ split_on newline t ->
     detect_intelligent_heading line m = None) ->
  pages_items n pages = [].
Proof.
  intros Hnone. destruct (pages_items n pages) as [|h hs] eqn:E; [reflexivity|].
  assert (Hh : h ∈ pages_items n pages) by (rewrite E; left).
  apply pages_items_elem in Hh as (i & t & line & Hi & _ & Hin & Hc).
  unfold classify in Hc.
  rewrite (Hnone t line _ (list_elem_of_lookup_2 _ _ _ Hi) Hin) in Hc.
  discriminate.
Qed.

End Builder.

(** C9.  The outline builder returns an outline for every sequence of
    pages.  A page whose text is absent or empty leaves the outline being
    collected as it is, and no item of the outline that is returned
    carries the number of such a page; the empty sequence of pages gives
    the empty outline; and so does a document none of whose lines is
    classified as a heading. *)
Theorem outline_builder_total :
  (forall (n : Z) (outline : list heading),
     scan_page n None outline = outline /\
     scan_page n (Some []) outline = outline) /\
  (forall (pages : list (option str)) (i : nat) (h : heading),
     pages !! i = Some None \/ pages !! i = Some (Some []) ->
     h ∈ extract_outline_exact pages -> page h <> (1 + Z.of_nat i)%Z) /\
  extract_outline_exact [] = [] /\
  (forall pages : list (option str),
     (forall (t line : str) (m : Z),
        Some t ∈ pages -> line ∈ split_on newline t ->
        detect_intelligent_heading line m = None) ->
     extract_outline_exact pages = []).
Proof.
  split; [intros n outline; split; reflexivity|]. split; [|split].
  - intros pages i h Hi Hh Hp.
    unfold extract_outline_exact in Hh. rewrite remove_duplicates_fresh in Hh.
    apply fresh_items_elem in Hh as [Hh _].
    rewrite collect_outline_items in Hh.
    apply pages_items_elem in Hh as (i' & t & line & Hi' & Ht & _ & Hc).
    apply classify_page in Hc. rewrite Hc in Hp.
    assert (i' = i) as -> by lia.
    rewrite Hi' in Hi. destruct Hi as [[=]|[= ->]]. congruence.
  - reflexivity.
  - intros pages Hnone. unfold extract_outline_exact.
    rewrite collect_outline_items, (pages_items_none 1 pages Hnone).
    reflexivity.
Qed.

Lemma outline_builder_total_witness :
  extract_outline_exact
    [Some (lit "plain words on a line"); None; Some (lit "more plain words")] = [].
Proof.
  apply (proj2 (proj2 (proj2 outline_builder_total))).
  intros t line m Ht Hline.
  apply elem_of_cons in Ht as [[= ->]|Ht].
  - vm_compute in Hline. apply list_elem_of_singleton in Hline as ->.
    reflexivity.
  - apply elem_of_cons in Ht as [[=]|Ht].
    apply list_elem_of_singleton in Ht as [= ->].
    vm_compute in Hline. apply list_elem_of_singleton in Hline as ->.
    reflexivity.
Defined.

(** ** Properties of the patterns *)

Section Patterns.

Lemma re_match_In (r : regex) (s : str) :
  re_match r s = true -> exists q, In q (ends r (0, s)).
Proof.
  unfold re_match. destruct (ends r (0, s)) as [|q l]; [discriminate|].
  exists q. now left.
Qed.

Lemma In_ends_cat (a b : regex) (p q : pos) :
  In q (ends (Cat a b) p) -> exists m, In m (ends a p) /\ In q (ends b m).
Proof. simpl. intros H. now apply in_flat_map in H. Qed.

Lemma In_ends_grp (a : regex) (p q : pos) :
  In q (ends (Grp a) p) -> In q (ends a p).
Proof. exact (fun H => H). Qed.

Lemma In_ends_bol (n : nat) (s : str) (q : pos) :
  In q (ends Bol (n, s)) -> q = (n, s) /\ n = 0.
Proof.
  simpl. destruct n; [|intros []]. intros [<-|[]]. now split.
Qed.

Lemma In_ends_eol (n : nat) (s : str) (q : pos) :
  In q (ends Eol (n, s)) -> q = (n, s) /\ (s = [] \/ s = [newline]).
Proof.
  simpl. destruct s as [|c [|c' s]]; [| |intros []].
  - intros [<-|[]]. split; [reflexivity | now left].
  - destruct (Ascii.eqb_spec c newline) as [->|]; [|intros []].
    intros [<-|[]]. split; [reflexivity | now right].
Qed.

Lemma In_ends_chr (k : cls) (n : nat) (s : str) (q : pos) :
  In q (ends (Chr k) (n, s)) ->
  exists c t, s = c :: t /\ cls_match k c = true /\ q = (S n, t).
Proof.
  simpl. destruct s as [|c t]; [intros []|].
  destruct (cls_match k c) eqn:E; [|intros []].
  intros [<-|[]]. now exists c, t.
Qed.

Lemma In_ends_lit (c : ascii) (n : nat) (s : str) (q : pos) :
  In q (ends (Chr (CLit c)) (n, s)) -> exists t, s = c :: t /\ q = (S n, t).
Proof.
  intros (c' & t & -> & Hc & ->)%In_ends_chr. simpl in Hc.
  apply Ascii.eqb_eq in Hc as ->. now exists t.
Qed.

(** A repeated one-character item matches a run of such characters. *)
Lemma In_rep_chr (k : cls) (fuel lo : nat) (hi : option nat) (n : nat)
    (s : str) (q : pos) :
  In q (rep (ends (Chr k)) fuel lo hi (n, s)) ->
  exists w t m,
    s = w ++ t /\ Forall (fun c => cls_match k c = true) w /\
    lo <= length w /\ q = (m, t).
Proof.
  revert lo hi n s. induction fuel as [|fuel IH]; intros lo hi n s H;
    simpl in H; apply in_app_or in H as [H|H].
  - destruct lo; [|destruct H]. destruct H as [<-|[]].
    exists [], s, n. repeat split; [constructor | simpl; lia].
  - destruct H.
  - destruct lo; [|destruct H]. destruct H as [<-|[]].
    exists [], s, n. repeat split; [constructor | simpl; lia].
  - assert (Hstep : In q (flat_map (rep (ends (Chr k)) fuel (pred lo)
                                      (option_map pred hi))
                            (ends (Chr k) (n, s)))).
    { destruct hi as [[|h]|]; [destruct H | exact H | exact H]. }
    apply in_flat_map in Hstep as ([n' s'] & Hm & Hq).
    apply In_ends_chr in Hm as (c & t & -> & Hc & [= -> ->]).
    apply IH in Hq as (w & t' & m & -> & Hw & Hlo & ->).
    exists (c :: w), t', m. repeat split; [now constructor | simpl; lia].
Qed.

Lemma In_ends_rep_chr (k : cls) (lo : nat) (hi : option nat) (n : nat)
    (s : str) (q : pos) :
  In q (ends (Rep lo hi (Chr k)) (n, s)) ->
  exists w t m,
    s = w ++ t /\ Forall (fun c => cls_match k c = true) w /\
    lo <= length w /\ q = (m, t).
Proof. simpl. apply In_rep_chr. Qed.

End Patterns.

(** Turns the hypotheses that a position is reached by a pattern into
    equations on the subject, item by item; alternatives are left as they
    are. *)
Ltac inv_ends :=
  repeat match goal with
    | H : In _ (ends (Cat _ _) _) |- _ =>
        apply In_ends_cat in H as ([? ?] & ? & H)
    | H : In _ (ends (Grp _) _) |- _ => apply In_ends_grp in H
    | H : In _ (ends Bol _) |- _ => apply In_ends_bol in H as [? ?]
    | H : In _ (ends Eol _) |- _ => apply In_ends_eol in H as [? ?]
    | H : In _ (ends (Chr (CLit _)) _) |- _ =>
        apply In_ends_lit in H as (? & ? & ?)
    | H : In _ (ends (Chr _) _) |- _ =>
        apply In_ends_chr in H as (? & ? & ? & ? & ?)
    | H : In _ (ends (Rep _ _ (Chr _)) _) |- _ =>
        apply In_ends_rep_chr in H as (? & ? & ? & ? & ? & ? & ?)
    end.

Ltac pattern_syntax H :=
  cbv [seq word map lit list_ascii_of_string chr plus star opt digit space dot]
    in H.

(** A run that is not empty has a first character. *)
Ltac split_runs :=
  repeat (cbn [cls_match app] in *; match goal with
    | H : S _ <= length ?w |- _ =>
        destruct w as [|? ?]; [simpl in H; lia|]; clear H
    | H : Forall _ (_ :: _) |- _ => apply Forall_cons in H as [? ?]
    | H : Ascii.eqb _ _ = true |- _ => apply Ascii.eqb_eq in H
    end);
  cbn [cls_match app] in *.

Section Shapes.

Lemma after_digits_app (w t : str) :
  Forall (fun c => isdecimal c = true) w -> after_digits (w ++ t) = after_digits t.
Proof.
  induction 1 as [|c w Hc _ IH]; [reflexivity|]. simpl. now rewrite Hc.
Qed.

Lemma isspace_not_decimal (c : ascii) : isspace c = true -> isdecimal c = false.
Proof.
  destruct c as [[] [] [] [] [] [] [] []]; vm_compute; congruence.
Qed.

Lemma after_digits_other (c : ascii) (t : str) :
  isdecimal c = false -> after_digits (c :: t) = c :: t.
Proof. intros H. simpl. now rewrite H. Qed.

(** The lines the patterns for H1 match: a number, a dot and at least two
    more characters; or a line that starts with "chapter" or "part". *)
Lemma h1_patterns_shape (s : str) :
  any_match h1_patterns s = true ->
  (exists d w r, s = d :: w ++ "."%char :: r /\ isdecimal d = true /\
                 Forall (fun c => isdecimal c = true) w /\ 2 <= length r) \/
  (exists r, s = lit "chapter" ++ r) \/
  (exists r, s = lit "part" ++ r).
Proof.
  unfold any_match, h1_patterns. simpl existsb. intros H.
  apply orb_prop in H as [H|H]; [|apply orb_prop in H as [H|H]];
    [| |apply orb_prop in H as [H|H]; [|discriminate]];
    apply re_match_In in H as [q H]; pattern_syntax H; inv_ends;
    split_runs; simplify_eq.
  - left. eexists _, _, _. split; [reflexivity|].
    repeat split; try assumption. simpl. rewrite length_app. simpl. lia.
  - right. left. eexists. reflexivity.
  - right. right. eexists. reflexivity.
Qed.

(** The lines the exclusion patterns match: a number that ends the line
    or is followed by whitespace; a line that starts with the copyright
    sign, "w", "h" or a dot; or a line that starts with "page". *)
Lemma skip_patterns_shape (s : str) :
  any_match skip_patterns s = true ->
  (exists d w t, s = d :: w ++ t /\ isdecimal d = true /\
                 Forall (fun c => isdecimal c = true) w /\
                 (t = [] \/ exists c t', t = c :: t' /\ isspace c = true)) \/
  (exists c r, s = c :: r /\ In c [copyright_sign; "w"; "h"; "."]%char) \/
  (exists r, s = lit "page" ++ r).
Proof.
  unfold any_match, skip_patterns. simpl existsb. intros H.
  repeat (apply orb_prop in H as [H|H]); [..|discriminate];
    apply re_match_In in H as [q H]; pattern_syntax H; inv_ends;
    split_runs; simplify_eq.
  - left. eexists _, _, _. split; [reflexivity|]. repeat split; try assumption.
    match goal with
    | H : _ = [] \/ _ = [newline] |- _ => destruct H as [->| ->]
    end; [now left|]. right. now eexists _, _.
  - right. right. eexists. reflexivity.
  - right. left. eexists _, _. split; [reflexivity|]. simpl. tauto.
  - right. left. eexists _, _. split; [reflexivity|]. simpl. tauto.
  - right. left. eexists _, _. split; [reflexivity|]. simpl. tauto.
  - left. eexists _, _, _. split; [reflexivity|]. repeat split; try assumption.
    right. now eexists _, _.
  - right. left. eexists _, _. split; [reflexivity|]. simpl. tauto.
Qed.

(** No line is matched both by a pattern for H1 and by an exclusion
    pattern. *)
Lemma h1_patterns_not_skipped (s : str) :
  any_match h1_patterns s = true -> any_match skip_patterns s = false.
Proof.
  intros Hh. destruct (any_match skip_patterns s) eqn:Hs; [exfalso|reflexivity].
  apply skip_patterns_shape in Hs
    as [(d & w & t & -> & Hd & Hw & Ht) | [(c & r & -> & Hc) | [r ->]]];
    apply h1_patterns_shape in Hh
      as [(d' & w' & r' & E & Hd' & Hw' & _) | [[r' E] | [r' E]]];
    simplify_eq/=.
  - assert (Ha : after_digits (w ++ t) = "."%char :: r').
    { match goal with H : _ ++ _ = _ ++ _ |- _ => rewrite H end.
      now rewrite after_digits_app. }
    rewrite after_digits_app in Ha by assumption.
    destruct Ht as [->|(c & t' & -> & Hc)]; [discriminate|].
    rewrite after_digits_other in Ha by now apply isspace_not_decimal.
    injection Ha as -> _. vm_compute in Hc. discriminate.
  - repeat destruct Hc as [<-|Hc]; try (vm_compute in Hd'; discriminate).
    destruct Hc.
  - repeat destruct Hc as [Hc|Hc]; try discriminate. destruct Hc.
  - repeat destruct Hc as [Hc|Hc]; try discriminate. destruct Hc.
Qed.

Lemma h1_patterns_length (s : str) :
  any_match h1_patterns s = true -> 3 <= length s.
Proof.
  intros [(d & w & r & -> & _ & _ & Hr) | [[r ->] | [r ->]]]%h1_patterns_shape;
    simpl; rewrite ?length_app; simpl; lia.
Qed.

Lemma length_lower (s : str) : length (lower s) = length s.
Proof. apply length_map. Qed.

End Shapes.

(** What the pattern for the leader dots does reject: a line that
    starts with three dots. *)
Lemma dots_pattern_prefix (s : str) :
  re_match (Rep 3 None (chr ".")) s = startswith (lit "...") s.
Proof.
  unfold re_match.
  destruct s as [|c1 [|c2 [|c3 r]]]; cbn -[Ascii.eqb];
    repeat match goal with
      | |- context [Ascii.eqb ?a ?b] =>
          destruct (Ascii.eqb a b); cbn -[Ascii.eqb]
      end; reflexivity.
Qed.

Lemma leader_dots_at_start_rejected (line : str) (p : Z) :
  startswith (lit "...") (lower (clean_text line)) = true ->
  detect_intelligent_heading line p = None.
Proof.
  intros H. unfold detect_intelligent_heading.
  destruct ((length (clean_text line) <? 3) || (200 <? length (clean_text line)));
    [reflexivity|].
  assert (E : any_match skip_patterns (lower (clean_text line)) = true).
  { apply existsb_exists. exists (Rep 3 None (chr ".")). split.
    - unfold skip_patterns. do 6 right. now left.
    - now rewrite dots_pattern_prefix. }
  now rewrite E.
Qed.




(** * Further properties *)

(** ** The normaliser: normal form, tokens, blank input *)

Section NormalForm.

Lemma head_ok_sub_ws_true (s : str) : head_ok (sub_ws true s) = true.
Proof.
  induction s as [|c r IH]; [reflexivity|]. simpl.
  destruct (isspace c) eqn:Hc; [exact IH|]. simpl. now rewrite Hc.
Qed.

Lemma single_spaced_sub_ws (f : bool) (s : str) :
  rstrip s = s -> single_spaced (sub_ws f s) = true.
Proof.
  revert f. induction s as [|c r IH]; intros f Hs; [reflexivity|].
  rewrite rstrip_cons in Hs. simpl. destruct (isspace c) eqn:Hc.
  - simpl in Hs. destruct (falsy (rstrip r)) eqn:Hf; [discriminate|].
    injection Hs as Hr. destruct f; [now apply IH|].
    cbn [single_spaced]. rewrite (IH true Hr), head_ok_sub_ws_true.
    assert (Hne : sub_ws true r <> []).
    { apply sub_ws_nonempty; [exact Hr|]. intros ->. discriminate. }
    destruct (sub_ws true r); [congruence|]. reflexivity.
  - simpl in Hs. injection Hs as Hr.
    cbn [single_spaced]. rewrite Hc, (IH false Hr). reflexivity.
Qed.

Lemma clean_text_normalized (s : str) : normalized (clean_text s) = true.
Proof.
  unfold normalized. rewrite clean_text_head_ok. simpl.
  rewrite clean_text_unfold. apply single_spaced_sub_ws, rstrip_idem.
Qed.

Lemma single_spaced_cons (c : ascii) (r : str) :
  single_spaced (c :: r) = true ->
  (isspace c = false \/ (c = " "%char /\ r <> [] /\ head_ok r = true)) /\
  single_spaced r = true.
Proof.
  cbn [single_spaced]. intros [H Hr]%andb_prop. split; [|exact Hr].
  destruct (isspace c); [right | now left]. simpl in H.
  apply andb_prop in H as [[Hc Hne]%andb_prop Hh].
  apply Ascii.eqb_eq in Hc. repeat split; try assumption.
  now destruct r.
Qed.

Lemma single_spaced_rstrip (s : str) : single_spaced s = true -> rstrip s = s.
Proof.
  induction s as [|c r IH]; [reflexivity|].
  intros [Hc Hr]%single_spaced_cons. rewrite rstrip_cons, (IH Hr).
  destruct Hc as [Hc|(_ & Hne & _)]; [now rewrite Hc|].
  destruct r; [congruence|]. now rewrite andb_false_r.
Qed.

Lemma single_spaced_sub_ws_id (s : str) :
  single_spaced s = true ->
  sub_ws false s = s /\ (head_ok s = true -> sub_ws true s = s).
Proof.
  induction s as [|c r IH]; [now split|].
  intros [Hc Hr]%single_spaced_cons. destruct (IH Hr) as [IHf IHt]. simpl.
  destruct Hc as [Hc|(-> & Hne & Hh)].
  - rewrite Hc, IHf. now split.
  - replace (isspace " ") with true by reflexivity.
    rewrite (IHt Hh). split; [reflexivity | discriminate].
Qed.

Lemma normalized_fixed (s : str) : normalized s = true -> clean_text s = s.
Proof.
  unfold normalized. intros [Hh Hs]%andb_prop.
  rewrite clean_text_unfold, strip_fixed;
    [now apply single_spaced_sub_ws_id | exact Hh | now apply single_spaced_rstrip].
Qed.

(** In a normalised line every whitespace character is a space. *)
Lemma single_spaced_In (s : str) (c : ascii) :
  single_spaced s = true -> In c s -> isspace c = true -> c = " "%char.
Proof.
  induction s as [|d r IH]; [intros _ []|].
  intros [Hd Hr]%single_spaced_cons [->|Hin] Hc; [|now apply IH].
  destruct Hd as [Hd|[-> _]]; [congruence | reflexivity].
Qed.

Lemma lstrip_nil (s : str) : lstrip s = [] <-> forallb isspace s = true.
Proof.
  induction s as [|c r IH]; [now split|]. simpl.
  destruct (isspace c); [exact IH|]. split; discriminate.
Qed.

Lemma rstrip_nil_head (s : str) : rstrip s = [] -> head_ok s = true -> s = [].
Proof.
  destruct s as [|c r]; [reflexivity|]. rewrite rstrip_cons. simpl.
  destruct (isspace c); [discriminate|]. simpl. discriminate.
Qed.

Lemma clean_text_nil (s : str) : clean_text s = [] <-> forallb isspace s = true.
Proof.
  rewrite <- lstrip_nil, clean_text_unfold. split.
  - intros H. apply rstrip_nil_head; [|apply lstrip_head_ok].
    fold (strip s). destruct (strip s) as [|a l] eqn:E; [reflexivity|]. exfalso.
    apply (sub_ws_nonempty false (a :: l));
      [rewrite <- E; apply rstrip_idem | discriminate | exact H].
  - unfold strip. now intros ->.
Qed.

Lemma rstrip_length (s : str) : length (rstrip s) <= length s.
Proof.
  induction s as [|c r IH]; [reflexivity|]. rewrite rstrip_cons.
  destruct (isspace c && falsy (rstrip r)); simpl; lia.
Qed.

Lemma lstrip_length (s : str) : length (lstrip s) <= length s.
Proof.
  induction s as [|c r IH]; [reflexivity|]. simpl.
  destruct (isspace c); simpl; lia.
Qed.

Lemma sub_ws_length (f : bool) (s : str) : length (sub_ws f s) <= length s.
Proof.
  revert f. induction s as [|c r IH]; intros f; [reflexivity|]. simpl.
  pose proof (IH true). pose proof (IH false).
  destruct (isspace c); [destruct f|]; simpl; lia.
Qed.

Lemma clean_text_length (s : str) : length (clean_text s) <= length s.
Proof.
  rewrite clean_text_unfold. unfold strip.
  pose proof (sub_ws_length false (rstrip (lstrip s))).
  pose proof (rstrip_length (lstrip s)). pose proof (lstrip_length s). lia.
Qed.

(** Tokens and the collapsed string. *)
Lemma sub_ws_rstrip_space (c : ascii) (r : str) :
  isspace c = true ->
  sub_ws false (rstrip (c :: r)) = sub_ws false (rstrip (" "%char :: r)).
Proof.
  intros Hc. rewrite !rstrip_cons, Hc.
  replace (isspace " ") with true by reflexivity. simpl.
  destruct (falsy (rstrip r)); [reflexivity|]. simpl. now rewrite Hc.
Qed.

Lemma join_tail_split (s cur : str) :
  join_tail (split_ws_aux cur s) =
  match cur with
  | [] => sub_ws false (rstrip (" "%char :: s))
  | _ => " "%char :: rev cur ++ sub_ws false (rstrip s)
  end.
Proof.
  revert cur. induction s as [|c r IH]; intros cur.
  - destruct cur; [reflexivity|]. cbn [split_ws_aux join_tail flat_map rstrip sub_ws].
    now rewrite !app_nil_r.
  - cbn [split_ws_aux]. destruct (isspace c) eqn:Hc.
    + destruct cur as [|x cur].
      * rewrite IH. rewrite (rstrip_cons " " (c :: r)), (rstrip_cons " " r).
        rewrite (rstrip_cons c r), Hc.
        replace (isspace " ") with true by reflexivity. simpl.
        destruct (falsy (rstrip r)) eqn:Hf; [reflexivity|].
        destruct (rstrip r); [discriminate|]. simpl. now rewrite Hc.
      * cbn [join_tail flat_map]. fold (join_tail (split_ws_aux [] r)).
        rewrite IH, (sub_ws_rstrip_space c r Hc). reflexivity.
    + rewrite IH. destruct cur as [|x cur].
      * rewrite (rstrip_cons " " (c :: r)), (rstrip_cons c r), Hc.
        replace (isspace " ") with true by reflexivity. simpl. now rewrite Hc.
      * rewrite (rstrip_cons c r), Hc. simpl. rewrite Hc.
        now rewrite <- !app_assoc.
Qed.

Lemma sub_ws_true_rstrip (s : str) :
  sub_ws true (rstrip s) = sub_ws false (rstrip (lstrip s)).
Proof.
  induction s as [|c r IH]; [reflexivity|]. simpl lstrip.
  destruct (isspace c) eqn:Hc.
  - rewrite <- IH, rstrip_cons, Hc. simpl.
    destruct (falsy (rstrip r)) eqn:Hf.
    + now destruct (rstrip r).
    + simpl. now rewrite Hc.
  - rewrite rstrip_cons, Hc. simpl. now rewrite Hc.
Qed.

Lemma clean_text_join (s : str) : clean_text s = join_sp (split_ws s).
Proof.
  rewrite clean_text_unfold. unfold strip. rewrite <- sub_ws_true_rstrip.
  pose proof (join_tail_split s []) as H. cbn match in H.
  unfold split_ws. rewrite rstrip_cons in H.
  replace (isspace " ") with true in H by reflexivity. simpl in H.
  destruct (split_ws_aux [] s) as [|t rest].
  - simpl in H. destruct (rstrip s); [reflexivity | discriminate].
  - cbn [join_tail flat_map] in H. fold (join_tail rest) in H.
    destruct (rstrip s) as [|x y]; [discriminate|]. simpl in H.
    injection H as H. symmetry. exact H.
Qed.

End NormalForm.

Section Tokens.

(** A token: not empty, without whitespace. *)
Let token (t : str) : Prop := t <> [] /\ Forall (fun c => isspace c = false) t.

Lemma split_ws_aux_tokens (s cur : str) :
  Forall (fun c => isspace c = false) cur ->
  Forall token (split_ws_aux cur s).
Proof.
  revert cur. induction s as [|c r IH]; intros cur Hcur; cbn [split_ws_aux].
  - destruct cur as [|x cur]; [constructor|]. repeat constructor.
    + intros E. apply (f_equal (@length ascii)) in E.
      rewrite length_rev in E. discriminate.
    + now apply Forall_rev.
  - destruct (isspace c) eqn:Hc.
    + destruct cur as [|x cur]; [now apply IH|]. constructor; [|now apply IH].
      split; [|now apply Forall_rev].
      intros E. apply (f_equal (@length ascii)) in E.
      rewrite length_rev in E. discriminate.
    + apply IH. now constructor.
Qed.

Lemma split_ws_aux_app (t cur rest : str) :
  Forall (fun c => isspace c = false) t ->
  split_ws_aux cur (t ++ rest) = split_ws_aux (rev t ++ cur) rest.
Proof.
  revert cur. induction t as [|c t IH]; intros cur Ht; [reflexivity|].
  apply Forall_cons in Ht as [Hc Ht]. cbn [app split_ws_aux]. rewrite Hc.
  rewrite (IH _ Ht). cbn [rev]. now rewrite <- app_assoc.
Qed.

Lemma split_ws_aux_join_tail (ts : list str) (cur : str) :
  cur <> [] -> Forall token ts ->
  split_ws_aux cur (join_tail ts) = rev cur :: ts.
Proof.
  revert cur. induction ts as [|t ts IH]; intros cur Hcur Hts.
  - destruct cur; [congruence | reflexivity].
  - apply Forall_cons in Hts as [[Hne Ht] Hts].
    cbn [join_tail flat_map app]. fold (join_tail ts). cbn [split_ws_aux].
    replace (isspace " ") with true by reflexivity.
    destruct cur as [|x cur]; [congruence|].
    rewrite (split_ws_aux_app t [] _ Ht), app_nil_r, IH; try assumption.
    + now rewrite rev_involutive.
    + intros E. apply Hne. apply (f_equal (@rev ascii)) in E.
      now rewrite rev_involutive in E.
Qed.

Lemma split_ws_join_sp (ts : list str) :
  Forall token ts -> split_ws (join_sp ts) = ts.
Proof.
  destruct ts as [|t ts]; [reflexivity|].
  intros [[Hne Ht] Hts]%Forall_cons. unfold split_ws, join_sp.
  rewrite (split_ws_aux_app t [] _ Ht), app_nil_r, split_ws_aux_join_tail;
    try assumption.
  - now rewrite rev_involutive.
  - intros E. apply Hne. apply (f_equal (@rev ascii)) in E.
    now rewrite rev_involutive in E.
Qed.

Lemma split_ws_clean_text (s : str) : split_ws (clean_text s) = split_ws s.
Proof.
  rewrite clean_text_join. apply split_ws_join_sp.
  apply split_ws_aux_tokens. constructor.
Qed.

End Tokens.

(** X1.  The results of the normaliser are in normalised form (no
    whitespace at either end, no whitespace character other than a space,
    no two spaces in a row), and a string is in that form exactly when
    the normaliser leaves it as it is. *)
Theorem clean_text_normal_form (s : str) :
  normalized (clean_text s) = true /\
  (forall c, In c (clean_text s) -> isspace c = true -> c = " "%char) /\
  (normalized s = true <-> clean_text s = s).
Proof.
  split; [apply clean_text_normalized|]. split.
  - intros c. apply single_spaced_In.
    pose proof (clean_text_normalized s) as H.
    now apply andb_prop in H as [_ H].
  - split; [apply normalized_fixed|].
    intros <-. apply clean_text_normalized.
Qed.

(** X2.  Normalising a string gives its whitespace-separated tokens joined
    by single spaces, and the normalised string has the tokens of the
    string it comes from. *)
Theorem clean_text_tokens (s : str) :
  clean_text s = join_sp (split_ws s) /\
  split_ws (clean_text s) = split_ws s.
Proof. split; [apply clean_text_join | apply split_ws_clean_text]. Qed.

(** X3.  The normalised string is empty exactly when every character of
    the string is whitespace (in particular for the empty string), and it
    is never longer than the string. *)
Theorem clean_text_blank (s : str) :
  (clean_text s = [] <-> forallb isspace s = true) /\
  length (clean_text s) <= length s.
Proof. split; [apply clean_text_nil | apply clean_text_length]. Qed.

(** ** The classifier: what it returns *)

Section Returned.

Lemma first_matching_rule_length (line : str) (r : rule) :
  first_matching_rule line = Some r -> 3 <= length (clean_text line) <= 200.
Proof.
  unfold first_matching_rule.
  destruct (length (clean_text line) <? 3) eqn:E1; [discriminate|].
  destruct (200 <? length (clean_text line)) eqn:E2; [discriminate|].
  apply Nat.ltb_ge in E1, E2. intros _. lia.
Qed.

Lemma first_matching_rule_colon (line : str) :
  first_matching_rule line = Some RuleColon -> colon_rule (clean_text line) = true.
Proof.
  unfold first_matching_rule.
  repeat match goal with
         | |- context [if ?b then _ else _] =>
             destruct b eqn:?; [first [discriminate | now intros _]|]
         end.
  discriminate.
Qed.

Lemma endswith_colon (s : str) :
  endswith (lit ":") s = true -> s = drop_last s ++ [":"%char].
Proof.
  unfold endswith, drop_last. destruct s as [|c r] using rev_ind; [discriminate|].
  rewrite rev_app_distr, removelast_last. cbn -[Ascii.eqb].
  rewrite andb_true_r. now intros ->%Ascii.eqb_eq.
Qed.

Lemma single_spaced_rstrip_snoc (u : str) (x : ascii) :
  single_spaced (u ++ [x]) = true -> single_spaced (rstrip u) = true.
Proof.
  induction u as [|c r IH]; [reflexivity|].
  cbn [app]. intros [Hc Hr]%single_spaced_cons. rewrite rstrip_cons.
  destruct (isspace c && falsy (rstrip r)) eqn:E; [reflexivity|].
  cbn [single_spaced]. rewrite (IH Hr), andb_true_r.
  destruct Hc as [Hc|(-> & _ & Hh)]; [now rewrite Hc|].
  replace (isspace " ") with true in * by reflexivity. simpl in E |- *.
  rewrite E. simpl. apply rstrip_head_ok.
  destruct r; [discriminate | exact Hh].
Qed.

(** A normalised string without its last character has at most one more
    character than its right-stripped form: a space. *)
Lemma rstrip_snoc_rest (u : str) (x : ascii) :
  single_spaced (u ++ [x]) = true ->
  u = rstrip u \/ u = rstrip u ++ [" "%char].
Proof.
  induction u as [|c r IH]; [now left|].
  cbn [app]. intros [Hc Hr]%single_spaced_cons. rewrite rstrip_cons.
  specialize (IH Hr). destruct Hc as [Hc|(-> & _ & Hh)].
  - rewrite Hc. simpl. destruct IH as [E|E]; [left | right]; now rewrite <- E.
  - replace (isspace " ") with true by reflexivity. simpl.
    destruct (rstrip r) as [|d r'] eqn:Er; simpl.
    + right. destruct IH as [->| ->]; [reflexivity | discriminate].
    + destruct IH as [->| ->]; [left | right]; reflexivity.
Qed.

End Returned.

Lemma detect_text_well_formed (line : str) (p : Z)
    (lv : heading_level) (t : str) :
  detect_intelligent_heading line p = Some (lv, t) ->
  t <> [] /\ normalized t = true /\ length t <= 200 /\
  (t = clean_text line \/
   clean_text line = t ++ lit ":" \/ clean_text line = t ++ lit " :").
Proof.
  rewrite detect_by_rule.
  destruct (first_matching_rule line) as [r|] eqn:R; [|discriminate].
  pose proof (first_matching_rule_length _ _ R) as Hlen.
  pose proof (clean_text_normalized line) as Hnorm.
  assert (Hwhole : rule_result (clean_text line) r = (lv, t) ->
                   t = clean_text line ->
                   t <> [] /\ normalized t = true /\ length t <= 200 /\
                   (t = clean_text line \/ clean_text line = t ++ lit ":" \/
                    clean_text line = t ++ lit " :")).
  { intros _ ->. repeat split; try assumption; [|lia | now left].
    intros E. rewrite E in Hlen. simpl in Hlen. lia. }
  destruct r; simpl; intros [= <- <-]; try (now apply Hwhole).
  clear Hwhole. apply first_matching_rule_colon in R.
  unfold colon_rule in R.
  apply andb_prop in R as [[[Hend _]%andb_prop _]%andb_prop _].
  apply endswith_colon in Hend.
  unfold normalized in Hnorm. apply andb_prop in Hnorm as [Hh Hs].
  set (u := drop_last (clean_text line)) in *.
  rewrite Hend in Hh, Hs, Hlen. rewrite length_app in Hlen. simpl in Hlen.
  assert (Hu : head_ok u = true).
  { destruct u; [simpl in Hlen; lia | exact Hh]. }
  unfold strip. rewrite (head_ok_lstrip _ Hu).
  pose proof (rstrip_length u) as Hrl.
  repeat split.
  - intros E. apply rstrip_nil_head in E; [|exact Hu].
    rewrite E in Hlen. simpl in Hlen. lia.
  - unfold normalized. rewrite (rstrip_head_ok _ Hu).
    now rewrite (single_spaced_rstrip_snoc _ _ Hs).
  - lia.
  - right. rewrite Hend.
    destruct (rstrip_snoc_rest _ _ Hs) as [E|E]; [left | right].
    + now rewrite <- E.
    + rewrite E at 1. now rewrite <- app_assoc.
Qed.

(** X4.  Whenever the classifier returns a heading, its text is not empty,
    is in normalised form, has at most 200 characters, and is the
    normalised line itself or, by the colon rule, the normalised line
    without its final colon and the space that may precede it. *)
Theorem heading_text_well_formed (line : str) (p : Z)
    (lv : heading_level) (t : str) :
  detect_intelligent_heading line p = Some (lv, t) ->
  t <> [] /\ normalized t = true /\ length t <= 200 /\
  (t = clean_text line \/
   clean_text line = t ++ lit ":" \/ clean_text line = t ++ lit " :").
Proof. apply detect_text_well_formed. Qed.

Lemma heading_text_well_formed_witness :
  lit "Scope of work" <> [] /\ normalized (lit "Scope of work") = true /\
  length (lit "Scope of work") <= 200 /\
  (lit "Scope of work" = clean_text (lit "  Scope of   work :") \/
   clean_text (lit "  Scope of   work :") = lit "Scope of work" ++ lit ":" \/
   clean_text (lit "  Scope of   work :") = lit "Scope of work" ++ lit " :").
Proof.
  apply (heading_text_well_formed (lit "  Scope of   work :") 2 H2).
  reflexivity.
Defined.

(** X5.  The fixed vocabulary is matched without regard to case and to
    surrounding or repeated whitespace: a line whose normalised,
    lowercased form is one of the fifteen section names is a heading of
    level H1 whose text is the normalised line, in its own case. *)
Theorem vocabulary_case_insensitive (line : str) (p : Z) :
  str_in (lower (clean_text line)) h1_sections = true ->
  classify line p = Some (Heading H1 (clean_text line) p).
Proof.
  unfold str_in. intros (w & Hin & Hw)%existsb_exists.
  apply bool_decide_eq_true in Hw.
  unfold classify, detect_intelligent_heading.
  rewrite <- (length_lower (clean_text line)), Hw.
  generalize (clean_text line) as nl. intros nl.
  simpl in Hin.
  repeat (destruct Hin as [<-|Hin]; [vm_compute; reflexivity|]).
  destruct Hin.
Qed.

Lemma vocabulary_case_insensitive_witness :
  classify (lit "  Table   of CONTENTS ") 1 =
  Some (Heading H1 (lit "Table of CONTENTS") 1).
Proof.
  apply (vocabulary_case_insensitive (lit "  Table   of CONTENTS ") 1).
  reflexivity.
Defined.

(** ** The patterns: lines they are sure to match *)

Section Matching.

Lemma In_re_match (r : regex) (s : str) (q : pos) :
  In q (ends r (0, s)) -> re_match r s = true.
Proof. unfold re_match. now destruct (ends r (0, s)). Qed.

Lemma ends_cat_intro (a b : regex) (p m q : pos) :
  In m (ends a p) -> In q (ends b m) -> In q (ends (Cat a b) p).
Proof. intros Hm Hq. simpl. apply in_flat_map. now exists m. Qed.

Lemma ends_chr_intro (k : cls) (n : nat) (c : ascii) (t : str) :
  cls_match k c = true -> In (S n, t) (ends (Chr k) (n, c :: t)).
Proof. intros H. simpl. rewrite H. now left. Qed.

Lemma ends_lit_intro (n : nat) (c : ascii) (t : str) :
  In (S n, t) (ends (chr c) (n, c :: t)).
Proof. apply ends_chr_intro. simpl. apply Ascii.eqb_refl. Qed.

(** A run of characters of the class is matched as a whole by the
    repeated class, whatever follows. *)
Lemma rep_chr_intro (k : cls) (w t : str) (n fuel lo : nat) :
  Forall (fun c => cls_match k c = true) w ->
  lo <= length w -> length w <= fuel ->
  In (n + length w, t) (rep (ends (Chr k)) fuel lo None (n, w ++ t)).
Proof.
  intros Hw. revert n fuel lo.
  induction Hw as [|c w Hc _ IH]; intros n fuel lo Hlo Hfuel.
  - simpl in Hlo. assert (lo = 0) as -> by lia. rewrite Nat.add_0_r.
    destruct fuel; simpl; now left.
  - destruct fuel as [|fuel]; [simpl in Hfuel; lia|].
    cbn [rep]. apply in_or_app. right.
    apply in_flat_map. exists (S n, w ++ t). split.
    + cbn [app]. now apply ends_chr_intro.
    + replace (n + length (c :: w)) with (S n + length w) by (simpl; lia).
      apply IH; simpl in *; lia.
Qed.

Lemma ends_rep_intro (k : cls) (w t : str) (n lo : nat) :
  Forall (fun c => cls_match k c = true) w -> lo <= length w ->
  In (n + length w, t) (ends (Rep lo None (Chr k)) (n, w ++ t)).
Proof.
  intros Hw Hlo. cbn [ends]. apply rep_chr_intro; [assumption..|].
  cbn [snd]. rewrite length_app. lia.
Qed.

Lemma lower_char_digit (c : ascii) : isdecimal c = true -> lower_char c = c.
Proof. destruct c as [[] [] [] [] [] [] [] []]; vm_compute; congruence. Qed.

Lemma lower_digits (w : str) :
  Forall (fun c => isdecimal c = true) w -> lower w = w.
Proof.
  induction 1 as [|c w Hc _ IH]; [reflexivity|].
  unfold lower in *. simpl. now rewrite IH, lower_char_digit.
Qed.

Lemma lower_char_newline (c : ascii) : lower_char c = newline -> c = newline.
Proof. destruct c as [[] [] [] [] [] [] [] []]; vm_compute; congruence. Qed.

Lemma lower_app (a b : str) : lower (a ++ b) = lower a ++ lower b.
Proof. apply map_app. Qed.

Lemma skip_rejects (line : str) (p : Z) :
  any_match skip_patterns (lower (clean_text line)) = true ->
  detect_intelligent_heading line p = None.
Proof.
  intros E. unfold detect_intelligent_heading. rewrite E.
  now destruct ((length (clean_text line) <? 3) || (200 <? length (clean_text line))).
Qed.

Lemma pure_number_match (w : str) :
  w <> [] -> Forall (fun c => isdecimal c = true) w ->
  re_match (seq [Bol; plus digit; Eol]) w = true.
Proof.
  intros Hne Hw. apply (In_re_match _ _ (0 + length w, [])).
  cbv [seq plus digit].
  apply ends_cat_intro with (m := (0, w)); [now left|].
  apply ends_cat_intro with (m := (0 + length w, [])); [|now left].
  rewrite <- (app_nil_r w) at 2. apply ends_rep_intro; [exact Hw|].
  destruct w; [congruence | simpl; lia].
Qed.

Lemma prefix_patterns (s : str) :
  re_match (seq [Bol; word "http"]) s = startswith (lit "http") s /\
  re_match (seq [Bol; word "www"; chr "."]) s = startswith (lit "www.") s /\
  re_match (seq [Bol; chr copyright_sign; star dot]) s =
    startswith [copyright_sign] s.
Proof.
  unfold re_match.
  repeat split;
    destruct s as [|c1 [|c2 [|c3 [|c4 r]]]]; cbn -[Ascii.eqb];
    repeat match goal with
      | |- context [Ascii.eqb ?a ?b] =>
          destruct (Ascii.eqb a b); cbn -[Ascii.eqb]
      end; reflexivity.
Qed.

Lemma page_number_match (d : ascii) (rest : str) :
  isdecimal d = true ->
  re_match (seq [Bol; word "page"; plus space; plus digit])
    (lit "page " ++ d :: rest) = true.
Proof.
  intros Hd. apply (In_re_match _ _ (6, rest)).
  cbv [seq word map lit list_ascii_of_string plus digit space app].
  apply ends_cat_intro with (m := (0, lit "page " ++ d :: rest)); [now left|].
  apply ends_cat_intro with (m := (4, " "%char :: d :: rest)).
  { repeat (eapply ends_cat_intro; [apply ends_lit_intro|]).
    apply ends_lit_intro. }
  apply ends_cat_intro with (m := (5, d :: rest)).
  - apply (ends_rep_intro CSpace [" "%char] (d :: rest) 4 1);
      [now repeat constructor | simpl; lia].
  - apply (ends_rep_intro CDigit [d] rest 5 1);
      [now repeat constructor | simpl; lia].
Qed.

End Matching.

(** X6.  A line that consists of decimal digits only is never a heading,
    however long it is. *)
Theorem digits_only_rejected (line : str) (p : Z) :
  forallb isdecimal (clean_text line) = true ->
  classify line p = None.
Proof.
  intros H. unfold classify.
  assert (E : detect_intelligent_heading line p = None); [|now rewrite E].
  destruct (clean_text line) as [|c r] eqn:Hnl.
  - apply detect_short. now rewrite Hnl.
  - apply skip_rejects. rewrite Hnl.
    assert (Hw : Forall (fun c => isdecimal c = true) (c :: r)).
    { apply Forall_forall. intros x Hx.
      apply (proj1 (forallb_forall _ _) H). now apply list_elem_of_In. }
    rewrite (lower_digits _ Hw).
    unfold any_match, skip_patterns. cbn [existsb].
    now rewrite pure_number_match.
Qed.

Lemma digits_only_rejected_witness : classify (lit " 2024 ") 1 = None.
Proof. apply (digits_only_rejected (lit " 2024 ") 1). reflexivity. Defined.

(** X7.  A line whose normalised, lowercased form starts with "http",
    with "www.", with the copyright sign, or with "page", a space and a
    digit is never a heading. *)
Theorem address_and_page_lines_rejected (line : str) (p : Z) :
  startswith (lit "http") (lower (clean_text line)) = true \/
  startswith (lit "www.") (lower (clean_text line)) = true \/
  startswith [copyright_sign] (lower (clean_text line)) = true \/
  (exists d rest, lower (clean_text line) = lit "page " ++ d :: rest /\
                  isdecimal d = true) ->
  classify line p = None.
Proof.
  intros H. unfold classify.
  assert (E : detect_intelligent_heading line p = None); [|now rewrite E].
  apply skip_rejects. unfold any_match, skip_patterns. cbn [existsb].
  destruct (prefix_patterns (lower (clean_text line))) as (Hhttp & Hwww & Hc).
  rewrite Hhttp, Hwww, Hc.
  destruct H as [-> | [-> | [-> | (d & rest & -> & Hd)]]];
    rewrite ?orb_true_r; try reflexivity.
  now rewrite (page_number_match d rest Hd), orb_true_r.
Qed.

Lemma address_and_page_lines_rejected_witness :
  classify (lit "HTTP Status Codes:") 4 = None /\
  classify (lit "Page 3 of 10") 4 = None.
Proof.
  split.
  - apply (address_and_page_lines_rejected (lit "HTTP Status Codes:") 4).
    left. reflexivity.
  - apply (address_and_page_lines_rejected (lit "Page 3 of 10") 4).
    do 3 right. exists "3"%char, (lit " of 10"). now split.
Defined.

(** ** The classifier: numbered lines *)

Section Numbered.

Abbreviation digits w := (Forall (fun c => isdecimal c = true) w).

(** A line the patterns for H1 match, with the whitespace after the dot of
    the numbered one. *)
Lemma h1_patterns_shape_strong (s : str) :
  any_match h1_patterns s = true ->
  (exists d w c r, s = d :: w ++ "."%char :: c :: r /\ isdecimal d = true /\
                   digits w /\ isspace c = true) \/
  (exists r, s = lit "chapter" ++ r) \/
  (exists r, s = lit "part" ++ r).
Proof.
  unfold any_match, h1_patterns. simpl existsb. intros H.
  apply orb_prop in H as [H|H]; [|apply orb_prop in H as [H|H]];
    [| |apply orb_prop in H as [H|H]; [|discriminate]];
    apply re_match_In in H as [q H]; pattern_syntax H; inv_ends;
    split_runs; simplify_eq.
  - left. eexists _, _, _, _. split; [reflexivity|]. now repeat split.
  - right. left. eexists. reflexivity.
  - right. right. eexists. reflexivity.
Qed.

Lemma h2_patterns_shape (s : str) :
  any_match h2_patterns s = true ->
  exists d w d' w' c r,
    s = d :: w ++ "."%char :: d' :: w' ++ c :: r /\ isdecimal d = true /\
    digits w /\ isdecimal d' = true /\ digits w' /\ isspace c = true.
Proof.
  unfold any_match, h2_patterns. simpl existsb. intros H.
  apply orb_prop in H as [H|H]; [|discriminate].
  apply re_match_In in H as [q H]; pattern_syntax H; inv_ends;
    split_runs; simplify_eq.
  eexists _, _, _, _, _, _. split; [reflexivity|]. now repeat split.
Qed.

Lemma after_digits_dot (w r : str) :
  digits w -> after_digits (w ++ "."%char :: r) = "."%char :: r.
Proof. intros Hw. now rewrite after_digits_app. Qed.

Lemma digit_led_not_skipped (w r : str) :
  w <> [] -> digits w -> any_match skip_patterns (w ++ "."%char :: r) = false.
Proof.
  intros Hne Hw.
  destruct (any_match skip_patterns (w ++ "."%char :: r)) eqn:Hs;
    [exfalso|reflexivity].
  apply skip_patterns_shape in Hs
    as [(d & w' & t & E & Hd & Hw' & Ht) | [(c & r' & E & Hc) | [r' E]]].
  - apply (f_equal after_digits) in E. rewrite after_digits_dot in E by exact Hw.
    simpl in E. rewrite Hd, after_digits_app in E by exact Hw'.
    destruct Ht as [->|(c & t' & -> & Hc)]; [discriminate|].
    rewrite after_digits_other in E by now apply isspace_not_decimal.
    injection E as <- _. vm_compute in Hc. discriminate.
  - destruct w as [|d w]; [congruence|]. apply Forall_cons in Hw as [Hd _].
    injection E as -> _.
    repeat destruct Hc as [<-|Hc]; try (vm_compute in Hd; discriminate).
    destruct Hc.
  - destruct w as [|d w]; [congruence|]. apply Forall_cons in Hw as [Hd _].
    injection E as -> _. vm_compute in Hd. discriminate.
Qed.

Lemma digit_dot_digit_not_h1 (w r : str) (d2 : ascii) :
  w <> [] -> digits w -> isdecimal d2 = true ->
  any_match h1_patterns (w ++ "."%char :: d2 :: r) = false.
Proof.
  intros Hne Hw Hd2.
  destruct (any_match h1_patterns (w ++ "."%char :: d2 :: r)) eqn:Hh;
    [exfalso|reflexivity].
  apply h1_patterns_shape_strong in Hh
    as [(d & w' & c & r' & E & Hd & Hw' & Hc) | [[r' E] | [r' E]]].
  - apply (f_equal after_digits) in E. rewrite after_digits_dot in E by exact Hw.
    simpl in E. rewrite Hd, after_digits_dot in E by exact Hw'.
    injection E as -> _. apply isspace_not_decimal in Hc. congruence.
  - destruct w as [|d w]; [congruence|]. apply Forall_cons in Hw as [Hd _].
    injection E as -> _. vm_compute in Hd. discriminate.
  - destruct w as [|d w]; [congruence|]. apply Forall_cons in Hw as [Hd _].
    injection E as -> _. vm_compute in Hd. discriminate.
Qed.

Lemma digit_led_not_vocabulary (d : ascii) (r : str) :
  isdecimal d = true -> str_in (strip (d :: r)) h1_sections = false.
Proof.
  intros Hd.
  assert (Hsp : isspace d = false).
  { destruct (isspace d) eqn:E; [|reflexivity].
    apply isspace_not_decimal in E. congruence. }
  unfold strip. simpl lstrip. rewrite Hsp, rstrip_cons, Hsp. cbn [andb].
  destruct (str_in (d :: rstrip r) h1_sections) eqn:E; [exfalso|reflexivity].
  unfold str_in in E. apply existsb_exists in E as (w & Hin & Hw).
  apply bool_decide_eq_true in Hw. subst w. simpl in Hin.
  repeat (destruct Hin as [Hin|Hin];
          [injection Hin as <- _; vm_compute in Hd; discriminate|]).
  destruct Hin.
Qed.

(** The three-level number is not read as a two-level one. *)
Lemma three_level_not_h2 (w1 w2 r : str) :
  digits w1 -> digits w2 ->
  any_match h2_patterns (w1 ++ "."%char :: w2 ++ "."%char :: r) = false.
Proof.
  intros Hw1 Hw2.
  destruct (any_match h2_patterns (w1 ++ "."%char :: w2 ++ "."%char :: r))
    eqn:Hh; [exfalso|reflexivity].
  apply h2_patterns_shape in Hh
    as (d & w & d' & w' & c & r' & E & Hd & Hw & Hd' & Hw' & Hc).
  apply (f_equal after_digits) in E. rewrite after_digits_dot in E by exact Hw1.
  simpl in E. rewrite Hd, after_digits_dot in E by exact Hw.
  injection E as E. apply (f_equal after_digits) in E.
  rewrite after_digits_dot in E by exact Hw2.
  simpl in E. rewrite Hd', after_digits_app in E by exact Hw'.
  rewrite after_digits_other in E by now apply isspace_not_decimal.
  injection E as <- _. vm_compute in Hc. discriminate.
Qed.

(** The matches. *)
Lemma ends_grp_intro (a : regex) (p q : pos) :
  In q (ends a p) -> In q (ends (Grp a) p).
Proof. exact (fun H => H). Qed.

Lemma text_match (n : nat) (x : ascii) (r : str) :
  x <> newline -> In (S n, r) (ends (Grp (Rep 1 None (Chr CAny))) (n, x :: r)).
Proof.
  intros Hx. cbn [ends]. fold (ends (Rep 1 None (Chr CAny)) (n, x :: r)).
  replace (S n) with (n + length [x]) by (simpl; lia).
  apply (ends_rep_intro CAny [x] r n 1); [|simpl; lia].
  repeat constructor. simpl. now apply negb_true_iff, Ascii.eqb_neq.
Qed.

Lemma space_match (n : nat) (c : ascii) (r : str) :
  isspace c = true -> In (S n, r) (ends (Rep 1 None (Chr CSpace)) (n, c :: r)).
Proof.
  intros Hc. replace (S n) with (n + length [c]) by (simpl; lia).
  apply (ends_rep_intro CSpace [c] r n 1); [|simpl; lia].
  now repeat constructor.
Qed.

Lemma number_match (n : nat) (w r : str) :
  w <> [] -> digits w ->
  In (n + length w, r) (ends (Rep 1 None (Chr CDigit)) (n, w ++ r)).
Proof.
  intros Hne Hw. apply ends_rep_intro; [exact Hw|].
  destruct w; [congruence | simpl; lia].
Qed.

Lemma h1_numbered_match (w r : str) (c x : ascii) :
  w <> [] -> digits w -> isspace c = true -> x <> newline ->
  any_match h1_patterns (w ++ "."%char :: c :: x :: r) = true.
Proof.
  intros Hne Hw Hc Hx. unfold any_match, h1_patterns. cbn [existsb].
  apply orb_true_intro. left.
  apply (In_re_match _ _ (S (S (S (0 + length w))), r)).
  cbv [seq plus digit space dot].
  eapply ends_cat_intro; [now left|].
  eapply ends_cat_intro; [apply (number_match 0 w _ Hne Hw)|].
  eapply ends_cat_intro; [apply ends_lit_intro|].
  eapply ends_cat_intro; [now apply space_match|].
  now apply text_match.
Qed.

Lemma h2_numbered_match (w1 w2 r : str) (c x : ascii) :
  w1 <> [] -> digits w1 -> w2 <> [] -> digits w2 ->
  isspace c = true -> x <> newline ->
  any_match h2_patterns (w1 ++ "."%char :: w2 ++ c :: x :: r) = true.
Proof.
  intros Hne1 Hw1 Hne2 Hw2 Hc Hx. unfold any_match, h2_patterns. cbn [existsb].
  apply orb_true_intro. left.
  apply (In_re_match _ _ (S (S (S (0 + length w1) + length w2)), r)).
  cbv [seq plus digit space dot].
  eapply ends_cat_intro; [now left|].
  eapply ends_cat_intro.
  { apply ends_grp_intro.
    eapply ends_cat_intro; [apply (number_match 0 w1 _ Hne1 Hw1)|].
    eapply ends_cat_intro; [apply ends_lit_intro|].
    apply (number_match _ w2 _ Hne2 Hw2). }
  eapply ends_cat_intro; [now apply space_match|].
  now apply text_match.
Qed.

Lemma h3_numbered_match (w1 w2 w3 r : str) (c x : ascii) :
  w1 <> [] -> digits w1 -> w2 <> [] -> digits w2 -> w3 <> [] -> digits w3 ->
  isspace c = true -> x <> newline ->
  any_match h3_patterns
    (w1 ++ "."%char :: w2 ++ "."%char :: w3 ++ c :: x :: r) = true.
Proof.
  intros Hne1 Hw1 Hne2 Hw2 Hne3 Hw3 Hc Hx.
  unfold any_match, h3_patterns. cbn [existsb].
  apply orb_true_intro. left.
  apply (In_re_match _ _
           (S (S (S (S (0 + length w1) + length w2) + length w3)), r)).
  cbv [seq plus digit space dot].
  eapply ends_cat_intro; [now left|].
  eapply ends_cat_intro.
  { apply ends_grp_intro.
    eapply ends_cat_intro; [apply (number_match 0 w1 _ Hne1 Hw1)|].
    eapply ends_cat_intro; [apply ends_lit_intro|].
    eapply ends_cat_intro; [apply (number_match _ w2 _ Hne2 Hw2)|].
    eapply ends_cat_intro; [apply ends_lit_intro|].
    apply (number_match _ w3 _ Hne3 Hw3). }
  eapply ends_cat_intro; [now apply space_match|].
  now apply text_match.
Qed.

End Numbered.

Section NumberedLines.

Abbreviation digits w := (Forall (fun c => isdecimal c = true) w).

Lemma h1_pattern_decides (line : str) (p : Z) :
  length (clean_text line) <= 200 ->
  any_match h1_patterns (lower (clean_text line)) = true ->
  first_matching_rule line = Some RuleH1Pattern /\
  classify line p = Some (Heading H1 (clean_text line) p).
Proof.
  intros Hlen Hpat.
  assert (R : first_matching_rule line = Some RuleH1Pattern).
  { unfold first_matching_rule.
    rewrite (h1_patterns_not_skipped _ Hpat), Hpat.
    pose proof (h1_patterns_length _ Hpat) as H3. rewrite length_lower in H3.
    replace (length (clean_text line) <? 3) with false
      by (symmetry; apply Nat.ltb_ge; lia).
    replace (200 <? length (clean_text line)) with false
      by (symmetry; apply Nat.ltb_ge; lia).
    reflexivity. }
  split; [exact R|].
  unfold classify. rewrite detect_by_rule, R. reflexivity.
Qed.

Lemma lower_digits_app (w r : str) (c : ascii) :
  digits w -> lower (w ++ c :: r) = w ++ lower_char c :: lower r.
Proof. intros Hw. now rewrite lower_app, (lower_digits w Hw). Qed.

(** A character of a normalised line does not become a line feed when it
    is lowercased. *)
Lemma normalized_lower_char (line pre r : str) (x : ascii) :
  clean_text line = pre ++ x :: r -> lower_char x <> newline.
Proof.
  intros E Hx. apply lower_char_newline in Hx. subst x.
  pose proof (clean_text_normalized line) as H.
  apply andb_prop in H as [_ H].
  assert (Hsp : newline = " "%char).
  { apply (single_spaced_In _ _ H); [|reflexivity].
    rewrite E. apply in_or_app. right. now left. }
  discriminate.
Qed.

Lemma rule_gives (line : str) (p : Z) (r : rule) :
  first_matching_rule line = Some r ->
  classify line p =
  Some (Heading (rule_result (clean_text line) r).1
                (rule_result (clean_text line) r).2 p).
Proof.
  intros R. unfold classify. rewrite detect_by_rule, R. simpl.
  now destruct (rule_result (clean_text line) r).
Qed.

End NumberedLines.

(** X8.  A line whose normalised form is a number, a dot, a space and some
    text, and has at most 200 characters, is a heading of level H1 with
    the whole normalised line as text, by the pattern rule. *)
Theorem numbered_line_is_h1 (line : str) (p : Z) (w t : str) :
  clean_text line = w ++ lit ". " ++ t ->
  w <> [] -> Forall (fun c => isdecimal c = true) w -> t <> [] ->
  length (clean_text line) <= 200 ->
  first_matching_rule line = Some RuleH1Pattern /\
  classify line p = Some (Heading H1 (clean_text line) p).
Proof.
  intros E Hne Hw Ht Hlen. destruct t as [|x r]; [congruence|].
  apply h1_pattern_decides; [exact Hlen|].
  assert (Hx : lower_char x <> newline).
  { apply (normalized_lower_char line (w ++ lit ". ") r).
    now rewrite <- app_assoc. }
  rewrite E. cbn [lit list_ascii_of_string app].
  rewrite (lower_digits_app _ _ _ Hw). cbn [lower map]. fold (lower r).
  now apply h1_numbered_match.
Qed.

Lemma numbered_line_is_h1_witness :
  first_matching_rule (lit " 12.  Scope of the work") = Some RuleH1Pattern /\
  classify (lit " 12.  Scope of the work") 5 =
    Some (Heading H1 (lit "12. Scope of the work") 5).
Proof.
  apply (numbered_line_is_h1 (lit " 12.  Scope of the work") 5
           (lit "12") (lit "Scope of the work")).
  - reflexivity.
  - discriminate.
  - repeat constructor.
  - discriminate.
  - vm_compute. lia.
Defined.

(** X9.  A line whose normalised form is a two-level number (digits, a
    dot, digits), a space and some text, and has at most 200 characters,
    is a heading of level H2 with the whole normalised line as text: no
    exclusion pattern and no rule for H1 takes it. *)
Theorem two_level_number_is_h2 (line : str) (p : Z) (w1 w2 t : str) :
  clean_text line = w1 ++ lit "." ++ w2 ++ lit " " ++ t ->
  w1 <> [] -> Forall (fun c => isdecimal c = true) w1 ->
  w2 <> [] -> Forall (fun c => isdecimal c = true) w2 ->
  t <> [] -> length (clean_text line) <= 200 ->
  first_matching_rule line = Some RuleH2Pattern /\
  classify line p = Some (Heading H2 (clean_text line) p).
Proof.
  intros E Hne1 Hw1 Hne2 Hw2 Ht Hlen. destruct t as [|x r]; [congruence|].
  cbn [lit list_ascii_of_string app] in E.
  assert (Hx : lower_char x <> newline).
  { apply (normalized_lower_char line (w1 ++ "."%char :: w2 ++ [" "%char]) r).
    rewrite E, <- !app_assoc. cbn [app]. now rewrite <- !app_assoc. }
  assert (EL : lower (clean_text line) =
               w1 ++ "."%char :: w2 ++ " "%char :: lower_char x :: lower r).
  { rewrite E, (lower_digits_app _ _ _ Hw1). cbn [lower map].
    change (map lower_char (w2 ++ " "%char :: x :: r))
      with (lower (w2 ++ " "%char :: x :: r)).
    now rewrite (lower_digits_app _ _ _ Hw2). }
  assert (R : first_matching_rule line = Some RuleH2Pattern).
  { unfold first_matching_rule. rewrite EL.
    rewrite (digit_led_not_skipped _ _ Hne1 Hw1).
    rewrite (h2_numbered_match w1 w2 (lower r) " " (lower_char x));
      try assumption; try reflexivity.
    destruct w2 as [|d2 w2']; [congruence|].
    pose proof Hw2 as [Hd2 _]%Forall_cons. cbn [app].
    rewrite (digit_dot_digit_not_h1 _ _ _ Hne1 Hw1 Hd2).
    destruct w1 as [|d1 w1']; [congruence|].
    pose proof Hw1 as [Hd1 _]%Forall_cons. cbn [app].
    rewrite (digit_led_not_vocabulary _ _ Hd1).
    assert (H3 : 3 <= length (clean_text line)).
    { rewrite E. simpl. rewrite length_app. simpl. lia. }
    replace (length (clean_text line) <? 3) with false
      by (symmetry; apply Nat.ltb_ge; lia).
    replace (200 <? length (clean_text line)) with false
      by (symmetry; apply Nat.ltb_ge; lia).
    reflexivity. }
  split; [exact R|]. now rewrite (rule_gives _ p _ R).
Qed.

Lemma two_level_number_is_h2_witness :
  first_matching_rule (lit "2.10 Data model") = Some RuleH2Pattern /\
  classify (lit "2.10 Data model") 5 =
    Some (Heading H2 (lit "2.10 Data model") 5).
Proof.
  apply (two_level_number_is_h2 (lit "2.10 Data model") 5
           (lit "2") (lit "10") (lit "Data model")).
  - reflexivity.
  - discriminate.
  - repeat constructor.
  - discriminate.
  - repeat constructor.
  - discriminate.
  - vm_compute. lia.
Defined.

(** X10.  A line whose normalised form is a three-level number, a space
    and some text, and has at most 200 characters, is a heading of level
    H3 with the whole normalised line as text: it is not taken for a
    line with a two-level number. *)
Theorem three_level_number_is_h3 (line : str) (p : Z) (w1 w2 w3 t : str) :
  clean_text line = w1 ++ lit "." ++ w2 ++ lit "." ++ w3 ++ lit " " ++ t ->
  w1 <> [] -> Forall (fun c => isdecimal c = true) w1 ->
  w2 <> [] -> Forall (fun c => isdecimal c = true) w2 ->
  w3 <> [] -> Forall (fun c => isdecimal c = true) w3 ->
  t <> [] -> length (clean_text line) <= 200 ->
  first_matching_rule line = Some RuleH3Pattern /\
  classify line p = Some (Heading H3 (clean_text line) p).
Proof.
  intros E Hne1 Hw1 Hne2 Hw2 Hne3 Hw3 Ht Hlen.
  destruct t as [|x r]; [congruence|].
  cbn [lit list_ascii_of_string app] in E.
  assert (Hx : lower_char x <> newline).
  { apply (normalized_lower_char line
             (w1 ++ "."%char :: w2 ++ "."%char :: w3 ++ [" "%char]) r).
    rewrite E, <- !app_assoc. cbn [app]. rewrite <- !app_assoc. cbn [app].
    now rewrite <- !app_assoc. }
  assert (EL : lower (clean_text line) =
               w1 ++ "."%char :: w2 ++ "."%char :: w3 ++
               " "%char :: lower_char x :: lower r).
  { rewrite E, (lower_digits_app _ _ _ Hw1). cbn [lower map].
    change (map lower_char (w2 ++ "."%char :: w3 ++ " "%char :: x :: r))
      with (lower (w2 ++ "."%char :: w3 ++ " "%char :: x :: r)).
    rewrite (lower_digits_app _ _ _ Hw2). cbn [lower map].
    change (map lower_char (w3 ++ " "%char :: x :: r))
      with (lower (w3 ++ " "%char :: x :: r)).
    now rewrite (lower_digits_app _ _ _ Hw3). }
  assert (R : first_matching_rule line = Some RuleH3Pattern).
  { unfold first_matching_rule. rewrite EL.
    rewrite (digit_led_not_skipped _ _ Hne1 Hw1).
    rewrite (three_level_not_h2 _ _ _ Hw1 Hw2).
    rewrite (h3_numbered_match w1 w2 w3 (lower r) " " (lower_char x));
      try assumption; try reflexivity.
    destruct w2 as [|d2 w2']; [congruence|].
    pose proof Hw2 as [Hd2 _]%Forall_cons. cbn [app].
    rewrite (digit_dot_digit_not_h1 _ _ _ Hne1 Hw1 Hd2).
    destruct w1 as [|d1 w1']; [congruence|].
    pose proof Hw1 as [Hd1 _]%Forall_cons. cbn [app].
    rewrite (digit_led_not_vocabulary _ _ Hd1).
    assert (H3 : 3 <= length (clean_text line)).
    { rewrite E. simpl. rewrite length_app. simpl. lia. }
    replace (length (clean_text line) <? 3) with false
      by (symmetry; apply Nat.ltb_ge; lia).
    replace (200 <? length (clean_text line)) with false
      by (symmetry; apply Nat.ltb_ge; lia).
    reflexivity. }
  split; [exact R|]. now rewrite (rule_gives _ p _ R).
Qed.

Lemma three_level_number_is_h3_witness :
  first_matching_rule (lit "2.10.3 Record layout") = Some RuleH3Pattern /\
  classify (lit "2.10.3 Record layout") 5 =
    Some (Heading H3 (lit "2.10.3 Record layout") 5).
Proof.
  apply (three_level_number_is_h3 (lit "2.10.3 Record layout") 5
           (lit "2") (lit "10") (lit "3") (lit "Record layout")).
  - reflexivity.
  - discriminate.
  - repeat constructor.
  - discriminate.
  - repeat constructor.
  - discriminate.
  - repeat constructor.
  - discriminate.
  - vm_compute. lia.
Defined.

(** ** The title selector: shape of the title, lines that do not count *)

Section TitleShape.

Lemma rstrip_snoc_space (s : str) (x : ascii) :
  isspace x = true -> rstrip (s ++ [x]) = rstrip s.
Proof.
  intros Hx. induction s as [|c r IH].
  - simpl. now rewrite Hx.
  - cbn [app]. now rewrite !rstrip_cons, IH.
Qed.

Lemma clean_text_two_spaces (s : str) :
  normalized s = true -> s <> [] -> clean_text (s ++ lit "  ") = s.
Proof.
  intros Hn Hne. pose proof (normalized_fixed _ Hn) as Hfix.
  unfold normalized in Hn. apply andb_prop in Hn as [Hh Hs].
  rewrite clean_text_unfold. unfold strip.
  rewrite head_ok_lstrip by (destruct s; [congruence | exact Hh]).
  change (s ++ lit "  ") with (s ++ [" "%char] ++ [" "%char]).
  rewrite app_assoc, !rstrip_snoc_space by reflexivity.
  rewrite (single_spaced_rstrip _ Hs). now apply single_spaced_sub_ws_id.
Qed.

Lemma nonempty_clean_In (raw_lines : list str) (c : str) :
  In c (nonempty_clean raw_lines) -> normalized c = true /\ c <> [].
Proof.
  unfold nonempty_clean. intros [Hin Hne]%filter_In.
  apply in_map_iff in Hin as (raw & <- & _). split.
  - apply clean_text_normalized.
  - intros E. now rewrite E in Hne.
Qed.

Lemma title_like_length (c : str) :
  title_like c = true -> 15 <= length c <= 150.
Proof.
  unfold title_like.
  intros [[[[H1 H2]%andb_prop _]%andb_prop _]%andb_prop _]%andb_prop.
  apply Nat.leb_le in H1, H2. lia.
Qed.

Lemma nonempty_clean_app (l1 l2 : list str) :
  nonempty_clean (l1 ++ l2) = nonempty_clean l1 ++ nonempty_clean l2.
Proof. unfold nonempty_clean. now rewrite map_app, List.filter_app. Qed.

Lemma nonempty_clean_blank (b : str) (l : list str) :
  clean_text b = [] -> nonempty_clean (b :: l) = nonempty_clean l.
Proof. intros E. unfold nonempty_clean. simpl. now rewrite E. Qed.

Lemma title_shape (pages : list (option str)) :
  extract_title_smart pages = [] \/
  (exists c, In c (title_candidates pages) /\ title_like c = true /\
             extract_title_smart pages = c ++ lit "  " /\
             clean_text (extract_title_smart pages) = c).
Proof.
  rewrite extract_title_smart_lines.
  destruct (first_title_cases (title_candidates pages))
    as [[_ H] | (pre & c & post & E & _ & Hc & Hres)]; [now left|].
  right. exists c.
  assert (Hin : In c (title_candidates pages)).
  { rewrite E. apply in_or_app. right. now left. }
  repeat split; try assumption.
  rewrite Hres. apply clean_text_two_spaces.
  - unfold title_candidates in Hin.
    apply list_elem_of_In, (subseteq_take 15), list_elem_of_In in Hin.
    now apply nonempty_clean_In in Hin.
  - apply title_like_length in Hc. intros ->. simpl in Hc. lia.
Qed.

End TitleShape.

(** X11.  A title that is not empty is a candidate line of the first page
    followed by exactly two spaces; the candidate is what normalising the
    title gives back, it passes the title filters, and it has between 15
    and 150 characters, so that the title has between 17 and 152. *)
Theorem title_round_trip (pages : list (option str)) :
  let title := extract_title_smart pages in
  title = [] \/
  (title = clean_text title ++ lit "  " /\
   In (clean_text title) (title_candidates pages) /\
   title_like (clean_text title) = true /\
   15 <= length (clean_text title) <= 150 /\
   17 <= length title <= 152).
Proof.
  intros title. destruct (title_shape pages) as [H|(c & Hin & Hc & E & Hclean)];
    [now left|]. right. subst title. rewrite Hclean.
  pose proof (title_like_length _ Hc) as Hlen.
  repeat split; try assumption; try lia;
    rewrite E, length_app; simpl; lia.
Qed.

(** X12.  Only the first 15 lines of the first page that are not blank
    count for the title: once there are 15 of them, lines that follow do
    not change the title.  Blank lines do not count at all: putting one
    in or taking one out, anywhere, does not change the title. *)
Theorem title_lines_that_count (l1 l2 : list str) :
  (15 <= length (nonempty_clean l1) ->
   title_of_lines (l1 ++ l2) = title_of_lines l1) /\
  (forall b, clean_text b = [] ->
             title_of_lines (l1 ++ b :: l2) = title_of_lines (l1 ++ l2)).
Proof.
  unfold title_of_lines. split.
  - intros H. now rewrite nonempty_clean_app, take_app_le.
  - intros b Hb.
    now rewrite !nonempty_clean_app, (nonempty_clean_blank b l2 Hb).
Qed.

Lemma title_lines_that_count_witness :
  title_of_lines ([lit "A study of regional market trends"] ++
                  lit "   " :: [lit "Second edition of the report"]) =
  title_of_lines ([lit "A study of regional market trends"] ++
                  [lit "Second edition of the report"]).
Proof.
  apply (proj2 (title_lines_that_count
                  [lit "A study of regional market trends"]
                  [lit "Second edition of the report"])).
  reflexivity.
Defined.

(** ** The outline builder: items, pages, duplicates *)

Section Outline.

Implicit Types (seen : gset (heading_level * str * Z)) (l : list heading).

Lemma scan_lines_intro (n : Z) (lines : list str) (line : str) (h : heading) :
  line ∈ lines -> classify line n = Some h -> h ∈ scan_lines n lines [].
Proof.
  induction lines as [|l ls IH]; [intros H; inversion H|].
  intros Hin Hc. simpl. rewrite scan_lines_app. apply elem_of_app.
  apply elem_of_cons in Hin as [->|Hin].
  - left. rewrite line_heading_classify, Hc. now left.
  - right. now apply IH.
Qed.

Lemma classify_empty (n : Z) : classify [] n = None.
Proof. reflexivity. Qed.

Lemma page_items_intro (n : Z) (t line : str) (h : heading) :
  line ∈ split_on newline t -> classify line n = Some h ->
  h ∈ page_items n (Some t).
Proof.
  intros Hin Hc. unfold page_items, scan_page. destruct t as [|c t].
  - simpl in Hin. apply list_elem_of_singleton in Hin as ->.
    rewrite classify_empty in Hc. discriminate.
  - simpl falsy. cbn match. now apply (scan_lines_intro _ _ line).
Qed.

Lemma pages_items_intro (n : Z) (pages : list (option str)) (i : nat)
    (t line : str) (h : heading) :
  pages !! i = Some (Some t) -> line ∈ split_on newline t ->
  classify line (n + Z.of_nat i) = Some h -> h ∈ pages_items n pages.
Proof.
  revert n i. induction pages as [|pg rest IH]; intros n i Hi Hin Hc;
    [discriminate|].
  simpl. apply elem_of_app. destruct i as [|i]; simpl in Hi.
  - injection Hi as ->. left. rewrite Z.add_0_r in Hc.
    now apply (page_items_intro _ _ line).
  - right. apply (IH _ i); try assumption.
    now replace (n + 1 + Z.of_nat i)%Z with (n + Z.of_nat (S i))%Z by lia.
Qed.

Lemma pages_items_page (n : Z) (pages : list (option str)) (h : heading) :
  h ∈ pages_items n pages ->
  (n <= page h < n + Z.of_nat (length pages))%Z.
Proof.
  intros (i & t & line & Hi & _ & _ & Hc)%pages_items_elem.
  apply classify_page in Hc. apply lookup_lt_Some in Hi. lia.
Qed.

Lemma page_items_page (n : Z) (pg : option str) (h : heading) :
  h ∈ page_items n pg -> page h = n.
Proof.
  intros H.
  assert (Hh : h ∈ pages_items n [pg]).
  { simpl. rewrite app_nil_r. exact H. }
  apply pages_items_page in Hh. simpl in Hh. lia.
Qed.

(** The collected items come page after page. *)
Lemma pages_items_sorted (n : Z) (pages : list (option str)) (i j : nat)
    (a b : heading) :
  i <= j -> pages_items n pages !! i = Some a ->
  pages_items n pages !! j = Some b -> (page a <= page b)%Z.
Proof.
  revert n i j. induction pages as [|pg rest IH]; intros n i j Hij Ha Hb;
    [discriminate|].
  simpl in Ha, Hb.
  apply lookup_app_Some in Ha as [Ha|[Hla Ha]];
    apply lookup_app_Some in Hb as [Hb|[Hlb Hb]].
  - apply list_elem_of_lookup_2, page_items_page in Ha, Hb. lia.
  - apply list_elem_of_lookup_2, page_items_page in Ha.
    apply list_elem_of_lookup_2, pages_items_page in Hb. lia.
  - apply lookup_lt_Some in Hb. lia.
  - apply (IH (n + 1)%Z (i - length (page_items n pg))
              (j - length (page_items n pg))); [lia | assumption..].
Qed.

Lemma pages_items_app (n : Z) (ps qs : list (option str)) :
  pages_items n (ps ++ qs) =
  pages_items n ps ++ pages_items (n + Z.of_nat (length ps)) qs.
Proof.
  revert n. induction ps as [|pg ps IH]; intros n.
  - simpl. now rewrite Z.add_0_r.
  - cbn [app pages_items length]. rewrite IH, <- app_assoc.
    now replace (n + 1 + Z.of_nat (length ps))%Z
      with (n + Z.of_nat (S (length ps)))%Z by lia.
Qed.

(** Only the keys of the items that are looked at matter in [seen]. *)
Lemma fresh_items_ext seen seen' l :
  (forall x, x ∈ l -> key_of x ∈ seen <-> key_of x ∈ seen') ->
  fresh_items seen l = fresh_items seen' l.
Proof.
  revert seen seen'. induction l as [|x r IH]; intros seen seen' H;
    [reflexivity|].
  simpl. pose proof (H x (list_elem_of_here _ _)) as Hx.
  destruct (decide (key_of x ∈ seen)) as [Hin|Hout];
    destruct (decide (key_of x ∈ seen')) as [Hin'|Hout']; try tauto.
  - apply IH. intros y Hy. apply H. now right.
  - f_equal. apply IH. intros y Hy.
    rewrite !elem_of_union. specialize (H y (list_elem_of_further _ _ _ Hy)).
    tauto.
Qed.

Lemma fresh_items_app seen l1 l2 :
  (forall x y, x ∈ l1 -> y ∈ l2 -> key_of x <> key_of y) ->
  fresh_items seen (l1 ++ l2) = fresh_items seen l1 ++ fresh_items seen l2.
Proof.
  revert seen. induction l1 as [|x r IH]; intros seen H; [reflexivity|].
  cbn [app fresh_items].
  assert (Hr : forall x y, x ∈ r -> y ∈ l2 -> key_of x <> key_of y).
  { intros a b Ha. apply H. now right. }
  destruct (decide (key_of x ∈ seen)); [now apply IH|].
  cbn [app]. f_equal. rewrite (IH _ Hr). f_equal.
  apply fresh_items_ext. intros y Hy. rewrite elem_of_union, elem_of_singleton.
  specialize (H x y (list_elem_of_here _ _) Hy). split; [|tauto].
  intros [E|E]; [congruence | exact E].
Qed.

Lemma fresh_items_nodup_id seen l :
  NoDup (key_of <$> l) -> (forall x, x ∈ l -> key_of x ∉ seen) ->
  fresh_items seen l = l.
Proof.
  revert seen. induction l as [|x r IH]; intros seen Hnd Hs; [reflexivity|].
  rewrite fmap_cons in Hnd. apply NoDup_cons in Hnd as [Hx Hnd]. simpl.
  destruct (decide (key_of x ∈ seen)) as [Hin|_].
  - exfalso. apply (Hs x); [left | exact Hin].
  - f_equal. apply IH; [exact Hnd|]. intros y Hy.
    rewrite elem_of_union, elem_of_singleton. intros [E|E].
    + apply Hx. rewrite <- E. apply list_elem_of_fmap. now exists y.
    + apply (Hs y); [now right | exact E].
Qed.

Lemma remove_duplicates_nodup_id l :
  NoDup (key_of <$> l) -> remove_duplicates l = l.
Proof.
  intros H. rewrite remove_duplicates_fresh.
  apply fresh_items_nodup_id; [exact H|]. intros x _. apply not_elem_of_empty.
Qed.

Lemma remove_duplicates_app l1 l2 :
  (forall x y, x ∈ l1 -> y ∈ l2 -> page x <> page y) ->
  remove_duplicates (l1 ++ l2) = remove_duplicates l1 ++ remove_duplicates l2.
Proof.
  intros H. rewrite !remove_duplicates_fresh. apply fresh_items_app.
  intros x y Hx Hy E. apply (H x y Hx Hy).
  unfold key_of in E. congruence.
Qed.

Lemma extract_outline_app (ps qs : list (option str)) :
  extract_outline_exact (ps ++ qs) =
  extract_outline_exact ps ++
  remove_duplicates (scan_pages (1 + Z.of_nat (length ps)) qs []).
Proof.
  unfold extract_outline_exact. rewrite !collect_outline_items, pages_items_app.
  rewrite scan_pages_app. cbn [app]. apply remove_duplicates_app.
  intros x y Hx%pages_items_page Hy%pages_items_page. lia.
Qed.

Lemma dedup_by_page_spec (n : Z) (pages : list (option str)) :
  remove_duplicates (pages_items n pages) = dedup_by_page n pages.
Proof.
  revert n. induction pages as [|pg rest IH]; intros n; [reflexivity|].
  cbn [pages_items dedup_by_page]. rewrite remove_duplicates_app.
  - now rewrite IH.
  - intros x y Hx%page_items_page Hy%pages_items_page. lia.
Qed.

Lemma scan_page_text_or_empty (n : Z) (pg : option str) (acc : list heading) :
  scan_page n (text_or_empty pg) acc = scan_page n pg acc.
Proof. now destruct pg. Qed.

Lemma scan_pages_text_or_empty (n : Z) (pages : list (option str))
    (acc : list heading) :
  scan_pages n (map text_or_empty pages) acc = scan_pages n pages acc.
Proof.
  revert n acc. induction pages as [|pg rest IH]; intros n acc; [reflexivity|].
  simpl. now rewrite scan_page_text_or_empty, IH.
Qed.

End Outline.

(** X13.  The outline holds exactly the classifications of the lines of
    the pages: an item is in the outline if and only if it is what the
    classifier returns for some line of the text of some page, with the
    number of that page (counted from 1). *)
Theorem outline_items_characterised (pages : list (option str)) (h : heading) :
  h ∈ extract_outline_exact pages <->
  exists (i : nat) (t line : str),
    pages !! i = Some (Some t) /\ line ∈ split_on newline t /\
    classify line (1 + Z.of_nat i) = Some h.
Proof.
  unfold extract_outline_exact.
  rewrite remove_duplicates_fresh, fresh_items_elem, collect_outline_items.
  split.
  - intros [(i & t & line & Hi & _ & Hin & Hc)%pages_items_elem _].
    now exists i, t, line.
  - intros (i & t & line & Hi & Hin & Hc). split; [|apply not_elem_of_empty].
    now apply (pages_items_intro 1 pages i t line).
Qed.

(** X14.  The page of every item of the outline is the number of a page of
    the document, between 1 and the number of pages, and the items of the
    outline come in the order of the pages: page numbers never decrease
    along the outline. *)
Theorem outline_pages_in_order (pages : list (option str)) :
  (forall h, h ∈ extract_outline_exact pages ->
             (1 <= page h <= Z.of_nat (length pages))%Z) /\
  (forall (i j : nat) (a b : heading),
     i < j ->
     extract_outline_exact pages !! i = Some a ->
     extract_outline_exact pages !! j = Some b ->
     (page a <= page b)%Z).
Proof.
  unfold extract_outline_exact. rewrite remove_duplicates_fresh. split.
  - intros h [Hh _]%fresh_items_elem. rewrite collect_outline_items in Hh.
    apply pages_items_page in Hh. lia.
  - intros i j a b Hij Ha Hb.
    pose proof (fresh_items_order _ _ _ _ _ _ Hij Ha Hb) as Hlt.
    apply list_elem_of_lookup_2, fresh_items_elem in Ha as [Ha _].
    apply list_elem_of_lookup_2, fresh_items_elem in Hb as [Hb _].
    apply first_index_lookup in Ha, Hb.
    rewrite collect_outline_items in *.
    eapply (pages_items_sorted 1 pages); [|exact Ha | exact Hb]. lia.
Qed.

(** X15.  The text of every item of the outline is not empty, is in
    normalised form and has at most 200 characters. *)
Theorem outline_texts_well_formed (pages : list (option str)) (h : heading) :
  h ∈ extract_outline_exact pages ->
  text h <> [] /\ normalized (text h) = true /\ length (text h) <= 200.
Proof.
  unfold extract_outline_exact. rewrite remove_duplicates_fresh.
  intros [Hh _]%fresh_items_elem. rewrite collect_outline_items in Hh.
  apply pages_items_elem in Hh as (i & t & line & _ & _ & _ & Hc).
  unfold classify in Hc.
  destruct (detect_intelligent_heading line (1 + Z.of_nat i))
    as [[lv tx]|] eqn:E; [|discriminate].
  injection Hc as <-. simpl.
  apply detect_text_well_formed in E as (H1 & H2 & H3 & _). now repeat split.
Qed.

Lemma outline_texts_well_formed_witness :
  lit "Open issues" <> [] /\ normalized (lit "Open issues") = true /\
  length (lit "Open issues") <= 200.
Proof.
  apply (outline_texts_well_formed
           [None; Some (lit "some words" ++ newline :: lit "Open  issues :")]
           (Heading H2 (lit "Open issues") 2)).
  vm_compute. left.
Defined.

(** X16.  Duplicates are removed page by page: the outline is the items of
    the first page without their duplicates, then those of the second
    page, and so on, so that a heading repeated on another page is kept;
    and the outline of a document followed by further pages is the
    outline of the document followed by the items of the further pages,
    numbered on, without their duplicates. *)
Theorem duplicates_removed_page_by_page :
  (forall pages, extract_outline_exact pages = dedup_by_page 1 pages) /\
  (forall ps qs,
     extract_outline_exact (ps ++ qs) =
     extract_outline_exact ps ++
     remove_duplicates (scan_pages (1 + Z.of_nat (length ps)) qs [])).
Proof.
  split; [|apply extract_outline_app].
  intros pages. unfold extract_outline_exact.
  rewrite collect_outline_items. apply dedup_by_page_spec.
Qed.

(** X17.  The loop that removes duplicates leaves a list without
    duplicate keys as it is, and running it on its own result changes
    nothing. *)
Theorem remove_duplicates_idempotent (l : list heading) :
  (NoDup (key_of <$> l) -> remove_duplicates l = l) /\
  remove_duplicates (remove_duplicates l) = remove_duplicates l.
Proof.
  split; [apply remove_duplicates_nodup_id|].
  apply remove_duplicates_nodup_id. rewrite remove_duplicates_fresh.
  apply fresh_items_nodup.
Qed.

Lemma remove_duplicates_idempotent_witness :
  remove_duplicates [Heading H1 (lit "Scope") 1; Heading H1 (lit "Scope") 2] =
  [Heading H1 (lit "Scope") 1; Heading H1 (lit "Scope") 2].
Proof.
  apply (proj1 (remove_duplicates_idempotent
                  [Heading H1 (lit "Scope") 1; Heading H1 (lit "Scope") 2])).
  apply (bool_decide_unpack _). vm_compute. exact I.
Defined.

(** X18.  A page whose text is absent counts as a page whose text is
    empty: replacing absent texts by empty ones changes neither the
    outline nor the title. *)
Theorem absent_text_as_empty (pages : list (option str)) :
  extract_outline_exact (map text_or_empty pages) = extract_outline_exact pages /\
  extract_title_smart (map text_or_empty pages) = extract_title_smart pages.
Proof.
  split.
  - unfold extract_outline_exact, collect_outline.
    now rewrite scan_pages_text_or_empty.
  - destruct pages as [|[t|] rest]; reflexivity.
Qed.

(** ** The classifier: dates, chapters and parts *)

Section Named.

Abbreviation digits w := (Forall (fun c => isdecimal c = true) w).

(** As [rep_chr_intro], with an upper bound on the repetitions. *)
Lemma rep_chr_intro_bounded (k : cls) (w t : str) (n fuel lo : nat)
    (hi : option nat) :
  Forall (fun c => cls_match k c = true) w ->
  lo <= length w -> length w <= fuel ->
  (forall h, hi = Some h -> length w <= h) ->
  In (n + length w, t) (rep (ends (Chr k)) fuel lo hi (n, w ++ t)).
Proof.
  intros Hw. revert n fuel lo hi.
  induction Hw as [|c w Hc _ IH]; intros n fuel lo hi Hlo Hfuel Hhi.
  - simpl in Hlo. assert (lo = 0) as -> by lia. rewrite Nat.add_0_r.
    destruct fuel; simpl; now left.
  - destruct fuel as [|fuel]; [simpl in Hfuel; lia|].
    cbn [rep]. apply in_or_app. right.
    assert (Hstep : In (n + length (c :: w), t)
                      (flat_map (rep (ends (Chr k)) fuel (pred lo)
                                   (option_map pred hi))
                         (ends (Chr k) (n, (c :: w) ++ t)))).
    { apply in_flat_map. exists (S n, w ++ t). split.
      - cbn [app]. now apply ends_chr_intro.
      - replace (n + length (c :: w)) with (S n + length w) by (simpl; lia).
        apply IH; simpl in *; try lia.
        intros h Hh. destruct hi as [h'|]; [|discriminate].
        injection Hh as <-. specialize (Hhi h' eq_refl). lia. }
    destruct hi as [[|h]|]; try exact Hstep.
    specialize (Hhi 0 eq_refl). simpl in Hhi. lia.
Qed.

Lemma month_match (m : string) (n : nat) (t : str) :
  In m months ->
  In (S (S (S n)), t) (ends (Grp (alts (map word months))) (n, lit m ++ t)).
Proof.
  intros Hin. simpl in Hin.
  repeat (destruct Hin as [<-|Hin]; [cbn; tauto|]). destruct Hin.
Qed.

Lemma date_match (w rest : str) (m : string) :
  digits w -> 1 <= length w <= 2 -> In m months ->
  re_match (seq [Bol; Rep 1 (Some 2) digit; plus space;
                 Grp (alts (map word months))])
    (w ++ " "%char :: lit m ++ rest) = true.
Proof.
  intros Hw Hlen Hm.
  apply (In_re_match _ _ (S (S (S (S (0 + length w)))), rest)).
  cbv [seq plus digit space].
  eapply ends_cat_intro; [now left|].
  eapply ends_cat_intro.
  { cbn [ends]. apply rep_chr_intro_bounded; cbn [snd]; try assumption;
      rewrite ?length_app; try lia.
    intros h [= <-]. lia. }
  eapply ends_cat_intro; [now apply space_match|].
  now apply month_match.
Qed.

Lemma lower_clean_no_newline (line : str) (x : ascii) :
  In x (lower (clean_text line)) -> x <> newline.
Proof.
  intros (y & <- & Hy)%in_map_iff.
  apply in_split in Hy as (pre & r & E).
  now apply (normalized_lower_char line pre r).
Qed.

Lemma chapter_match (d x : ascii) (r : str) :
  isdecimal d = true -> x <> newline ->
  any_match h1_patterns (lit "chapter " ++ d :: x :: r) = true.
Proof.
  intros Hd Hx. unfold any_match, h1_patterns. cbn [existsb].
  apply orb_true_intro. right. apply orb_true_intro. left.
  apply (In_re_match _ _ (10, r)).
  cbv [seq word map lit list_ascii_of_string plus star opt digit space dot app].
  eapply ends_cat_intro; [now left|].
  eapply ends_cat_intro.
  { apply ends_grp_intro.
    eapply ends_cat_intro.
    { repeat (eapply ends_cat_intro; [apply ends_lit_intro|]).
      apply ends_lit_intro. }
    eapply ends_cat_intro; [now apply space_match|].
    apply (number_match 8 [d] (x :: r)); [discriminate | now repeat constructor]. }
  eapply ends_cat_intro; [apply (ends_rep_intro CSpace [] _ _ 0); [constructor | simpl; lia]|].
  eapply ends_cat_intro.
  { cbn [ends]. apply (rep_chr_intro_bounded _ [] _ _ _ 0 (Some 1));
      [constructor | simpl; lia | simpl; lia | intros h _; simpl; lia]. }
  eapply ends_cat_intro; [apply (ends_rep_intro CSpace [] _ _ 0); [constructor | simpl; lia]|].
  now apply text_match.
Qed.

Lemma part_match (v x : ascii) (r : str) :
  In v ["i"; "v"; "x"]%char -> x <> newline ->
  any_match h1_patterns (lit "part " ++ v :: x :: r) = true.
Proof.
  intros Hv Hx. unfold any_match, h1_patterns. cbn [existsb].
  apply orb_true_intro. right. apply orb_true_intro. right.
  apply orb_true_intro. left.
  apply (In_re_match _ _ (7, r)).
  cbv [seq word map lit list_ascii_of_string plus star opt digit space dot app].
  eapply ends_cat_intro; [now left|].
  eapply ends_cat_intro.
  { apply ends_grp_intro.
    eapply ends_cat_intro.
    { repeat (eapply ends_cat_intro; [apply ends_lit_intro|]).
      apply ends_lit_intro. }
    eapply ends_cat_intro; [now apply space_match|].
    apply (ends_rep_intro (CSet ["i"; "v"; "x"]%char) [v] (x :: r) 5 1);
      [|simpl; lia].
    repeat constructor. simpl in Hv.
    destruct Hv as [<-|[<-|[<-|[]]]]; reflexivity. }
  eapply ends_cat_intro; [apply (ends_rep_intro CSpace [] _ _ 0); [constructor | simpl; lia]|].
  eapply ends_cat_intro.
  { cbn [ends]. apply (rep_chr_intro_bounded _ [] _ _ _ 0 (Some 1));
      [constructor | simpl; lia | simpl; lia | intros h _; simpl; lia]. }
  eapply ends_cat_intro; [apply (ends_rep_intro CSpace [] _ _ 0); [constructor | simpl; lia]|].
  now apply text_match.
Qed.

End Named.

(** X19.  A line whose normalised, lowercased form starts with one or two
    digits, a space and the first three letters of a month is never a
    heading. *)
Theorem date_lines_rejected (line : str) (p : Z) (w rest : str) (m : string) :
  lower (clean_text line) = w ++ lit " " ++ lit m ++ rest ->
  Forall (fun c => isdecimal c = true) w -> 1 <= length w <= 2 ->
  In m months ->
  classify line p = None.
Proof.
  intros E Hw Hlen Hm. unfold classify.
  assert (R : detect_intelligent_heading line p = None); [|now rewrite R].
  apply skip_rejects. rewrite E. unfold any_match, skip_patterns.
  cbn [existsb]. cbn [lit list_ascii_of_string app] in *.
  rewrite (date_match w rest m Hw Hlen Hm). now rewrite !orb_true_r.
Qed.

Lemma date_lines_rejected_witness :
  classify (lit "12 January 2024:") 1 = None.
Proof.
  apply (date_lines_rejected (lit "12 January 2024:") 1
           (lit "12") (lit "uary 2024:") "jan").
  - reflexivity.
  - repeat constructor.
  - simpl. lia.
  - now left.
Defined.

(** X20.  A line whose normalised, lowercased form starts with "chapter ",
    a digit and one more character, or with "part ", one of the letters
    i, v, x and one more character, and that has at most 200 characters,
    is a heading of level H1 with the whole normalised line as text. *)
Theorem chapter_and_part_are_h1 (line : str) (p : Z) (k x : ascii) (r : str) :
  (lower (clean_text line) = lit "chapter " ++ k :: x :: r /\
   isdecimal k = true) \/
  (lower (clean_text line) = lit "part " ++ k :: x :: r /\
   In k ["i"; "v"; "x"]%char) ->
  length (clean_text line) <= 200 ->
  first_matching_rule line = Some RuleH1Pattern /\
  classify line p = Some (Heading H1 (clean_text line) p).
Proof.
  intros H Hlen. apply h1_pattern_decides; [exact Hlen|].
  assert (Hx : x <> newline).
  { apply (lower_clean_no_newline line).
    destruct H as [[-> _]|[-> _]]; apply in_or_app; right; right; now left. }
  destruct H as [[-> Hk]|[-> Hk]]; [now apply chapter_match | now apply part_match].
Qed.

Lemma chapter_and_part_are_h1_witness :
  first_matching_rule (lit "Chapter 12") = Some RuleH1Pattern /\
  classify (lit "Chapter 12") 3 = Some (Heading H1 (lit "Chapter 12") 3).
Proof.
  apply (chapter_and_part_are_h1 (lit "Chapter 12") 3 "1" "2" []).
  - left. split; reflexivity.
  - vm_compute. lia.
Defined.
